(** * The To-Do application: models, session and authentication routes

    A shallow embedding of [todo_app/models.py] (the [User] and [Task]
    models, their persistence helpers and the [before_insert] hook), of the
    validators of [todo_app/forms.py] that the routes rely on, and of the
    routes of [run.py]: [login] and [signup] first, then [create_task],
    [task_detail], [logout] and the user loader.

    The database session is a piece of explicit state: every method that
    talks to [db.session] is a computation in a state-and-exception monad
    over a [World] holding the committed rows, the objects pending in the
    session, a script of what concurrent transactions and the connection do
    at each commit, and a trace of the session calls made so far.

    Third-party functions ([slugify], Werkzeug's password hashing, the
    [Email()] validator, [urlparse]) are interfaces: the development is
    parametric in them, and small instances are given for the examples.

    Two conventions hold throughout.  An object handed to the session is a
    new one (the application never updates or deletes a row).  A query reads
    the committed rows; the flush a query would trigger for objects already
    pending is not modelled, so statements about a whole request start from
    a session with nothing pending, as every request of the application
    does. *)

From Stdlib Require Import String Ascii List Arith ZArith Lia Bool.
From Stdlib Require Import Decimal DecimalFacts DecimalNat DecimalString.
From Stdlib Require Import Permutation Sorted FinFun.
Import ListNotations.

Open Scope string_scope.
Open Scope list_scope.

(** ** Python strings

    A Python [str] is a [string] whose characters are the code points below
    256.  Only the string operations the application calls are modelled. *)

Module Py.

(** [bool(s)] for a string: non-empty. *)
Definition truthy (s : string) : bool :=
  match s with
  | EmptyString => false
  | String _ _ => true
  end.

(** [a or b] on strings. *)
Definition or_ (a b : string) : string := if truthy a then a else b.

(** [str(n)] for a non-negative integer: its decimal numeral. *)
Definition str (n : nat) : string := NilEmpty.string_of_uint (Nat.to_uint n).

(** [c.isspace()] on the code points below 256. *)
Definition isspace (c : ascii) : bool :=
  let n := nat_of_ascii c in
  (((9 <=? n) && (n <=? 13)) || ((28 <=? n) && (n <=? 32))
   || (n =? 133) || (n =? 160))%nat.

Fixpoint lstrip (s : string) : string :=
  match s with
  | EmptyString => EmptyString
  | String c r => if isspace c then lstrip r else s
  end.

Fixpoint rstrip (s : string) : string :=
  match s with
  | EmptyString => EmptyString
  | String c r =>
      let r' := rstrip r in
      if isspace c && negb (truthy r') then EmptyString else String c r'
  end.

(** [s.strip()] with no argument. *)
Definition strip (s : string) : string := rstrip (lstrip s).

(** [c.lower()]: the ASCII capitals and the Latin-1 capitals (all of
    U+00C0..U+00DE but the multiplication sign U+00D7) move up by 32. *)
Definition lower_char (c : ascii) : ascii :=
  let n := nat_of_ascii c in
  if (((65 <=? n) && (n <=? 90))
      || ((192 <=? n) && (n <=? 222) && negb (n =? 215)))%nat
  then ascii_of_nat (n + 32) else c.

Fixpoint lower (s : string) : string :=
  match s with
  | EmptyString => EmptyString
  | String c r => String (lower_char c) (lower r)
  end.

End Py.

(** ** Exceptions and results *)

Inductive violation : Type :=
| UniqueViolation (table column : string)
| ForeignKeyViolation (table column : string)
| NotNullViolation (table column : string).

Inductive exn : Type :=
| IntegrityError (v : violation)
    (* sqlalchemy.exc.IntegrityError, with the constraint the store reports *)
| OtherError (name : string).
    (* an exception of any other class, by name *)

Inductive result (A : Type) : Type :=
| Ok (a : A)
| Raise (e : exn).
Arguments Ok {A} a.
Arguments Raise {A} e.

(** ** Third-party interfaces *)

(** [slugify.slugify], called with a title only. *)
Class Slugifier := slugify : string -> string.

(** [werkzeug.security].  [generate_password_hash] draws a random salt; the
    salt is an explicit argument here.  [check_password_hash] receives
    whatever [User.password_hash] holds ([None] before a password is set)
    and may raise. *)
Class PasswordHasher := {
  generate_password_hash : string -> string -> string;
  check_password_hash : option string -> string -> result bool
}.

(** [wtforms.validators.Email]: does the address pass? *)
Class EmailValidator := email_is_valid : string -> bool.

(** [urllib.parse.urlparse]: the [scheme] and the [netloc] of a URL. *)
Class UrlParser := urlparse : string -> string * string.

(** ** The two models *)

(** The primary key and the timestamp of [User] are called [id] and
    [created_at] in the source, like those of [Task]; here they carry the
    name of their table.  A column that is [None] on a new object is an
    [option]. *)
Record User : Type := mkUser {
  users_id : option nat;
  name : string;
  email : string;
  password_hash : option string;
  users_created_at : option nat
}.

Record Task : Type := mkTask {
  id : option nat;
  user_id : nat;
  title : string;
  description : option string;
  due_date : option nat;
  priority : option nat;
  completed : option bool;
  slug : option string;
  created_at : option nat
}.

Definition set_slug (t : Task) (s : option string) : Task :=
  mkTask (id t) (user_id t) (title t) (description t) (due_date t)
         (priority t) (completed t) s (created_at t).

(** [x or d] for an optional column value with a default. *)
Definition default {A : Type} (d : A) (x : option A) : option A :=
  match x with
  | Some _ => x
  | None => Some d
  end.

(** [not target.slug]: the slug is [None] or the empty string. *)
Definition slug_missing (t : Task) : bool :=
  match slug t with
  | None => true
  | Some s => negb (Py.truthy s)
  end.

Definition has_slug (s : string) (t : Task) : bool :=
  match slug t with
  | Some s' => String.eqb s' s
  | None => false
  end.

Definition has_email (e : string) (u : User) : bool := String.eqb (email u) e.

Definition opt_nat_eqb (a b : option nat) : bool :=
  match a, b with
  | Some x, Some y => Nat.eqb x y
  | _, _ => false
  end.

(** ** The store *)

Inductive entity : Type :=
| EUser (u : User)
| ETask (t : Task).

Record DB : Type := mkDB {
  users : list User;            (* rows of [users], oldest insert first *)
  tasks : list Task;            (* rows of [tasks], oldest insert first *)
  next_user_id : nat;           (* the two id sequences *)
  next_task_id : nat
}.

(** What happens around one commit of this session: the objects other
    sessions commit just before it, the reading of [datetime.utcnow] used
    for the column defaults, and a failure of the connection or of the
    statement that is not an integrity error, by the name of its class. *)
Record Interference : Type := mkInterference {
  others : list entity;
  now : nat;
  fault : option string
}.

Definition quiet : Interference := mkInterference [] 0 None.

Inductive call : Type :=
| CAdd (e : entity)
| CCommit (succeeded : bool)
| CRollback.

Record World : Type := mkWorld {
  store : DB;
  pending : list entity;        (* objects added to the session, not flushed *)
  env : list Interference;      (* one entry per commit still to come *)
  trace : list call;            (* session calls so far, oldest first *)
  current_user : option User;   (* Flask-Login's logged-in user *)
  flashes : list (string * string)
}.

(** ** The state-and-exception monad *)

Definition M (A : Type) : Type := World -> result A * World.

Definition ret {A : Type} (a : A) : M A := fun w => (Ok a, w).

Definition bind {A B : Type} (c : M A) (k : A -> M B) : M B :=
  fun w =>
    match c w with
    | (Ok a, w') => k a w'
    | (Raise e, w') => (Raise e, w')
    end.

Definition raise {A : Type} (e : exn) : M A := fun w => (Raise e, w).

(** [try: c / except IntegrityError: h]. *)
Definition try_except_IntegrityError {A : Type} (c : M A) (h : M A) : M A :=
  fun w =>
    match c w with
    | (Raise (IntegrityError _), w') => h w'
    | r => r
    end.

Definition gets {A : Type} (f : World -> A) : M A := fun w => (Ok (f w), w).

Definition lift_result {A : Type} (r : result A) : M A := fun w => (r, w).

Notation "x <- c ;; k" := (bind c (fun x => k))
  (at level 61, c at next level, right associativity).
Notation "c ;;; k" := (bind c (fun _ => k))
  (at level 61, right associativity).

(** ** Inserting rows

    An [INSERT] of one object: the listener runs first, the id comes from
    the sequence unless the object carries one, the constraints of the table
    are checked against the committed rows, and the column defaults fill
    what is still [None].  The result is the violation if any, the Python
    object as the attempt leaves it, and the database afterwards (a failed
    insert adds no row but has drawn from the sequence). *)

Section Insert.
Context {slugifier : Slugifier}.

(** The [before_insert] listener registered on [Task]. *)
Definition task_before_insert (target : Task) : Task :=
  if slug_missing target then
    let base := Py.or_ (slugify (title target)) "task" in
    set_slug target (Some base)
  else target.

Definition draw (own : option nat) (seq : nat) : nat * nat :=
  match own with
  | Some n => (n, seq)
  | None => (seq, S seq)
  end.

Definition insert_task (now : nat) (t : Task) (db : DB)
  : option violation * Task * DB :=
  let t1 := task_before_insert t in
  let '(new_id, seq) := draw (id t1) (next_task_id db) in
  let db1 := mkDB (users db) (tasks db) (next_user_id db) seq in
  match slug t1 with
  | None => (Some (NotNullViolation "tasks" "slug"), t1, db1)
  | Some s =>
      if existsb (fun r => opt_nat_eqb (id r) (Some new_id)) (tasks db) then
        (Some (UniqueViolation "tasks" "id"), t1, db1)
      else if existsb (has_slug s) (tasks db) then
        (Some (UniqueViolation "tasks" "slug"), t1, db1)
      else if negb (existsb (fun u => opt_nat_eqb (users_id u)
                                        (Some (user_id t1))) (users db)) then
        (Some (ForeignKeyViolation "tasks" "user_id"), t1, db1)
      else
        let row := mkTask (Some new_id) (user_id t1) (title t1)
                          (description t1) (due_date t1)
                          (default 3 (priority t1))
                          (default false (completed t1))
                          (Some s) (default now (created_at t1)) in
        (None, row, mkDB (users db) (tasks db ++ [row]) (next_user_id db) seq)
  end.

Definition insert_user (now : nat) (u : User) (db : DB)
  : option violation * User * DB :=
  let '(new_id, seq) := draw (users_id u) (next_user_id db) in
  let db1 := mkDB (users db) (tasks db) seq (next_task_id db) in
  match password_hash u with
  | None => (Some (NotNullViolation "users" "password_hash"), u, db1)
  | Some _ =>
      if existsb (fun r => opt_nat_eqb (users_id r) (Some new_id)) (users db) then
        (Some (UniqueViolation "users" "id"), u, db1)
      else if existsb (has_email (email u)) (users db) then
        (Some (UniqueViolation "users" "email"), u, db1)
      else
        let row := mkUser (Some new_id) (name u) (email u) (password_hash u)
                          (default now (users_created_at u)) in
        (None, row, mkDB (users db ++ [row]) (tasks db) seq (next_task_id db))
  end.

Definition insert (now : nat) (e : entity) (db : DB)
  : option violation * entity * DB :=
  match e with
  | EUser u => let '(v, u', db') := insert_user now u db in (v, EUser u', db')
  | ETask t => let '(v, t', db') := insert_task now t db in (v, ETask t', db')
  end.

(** The flush of one transaction: the pending objects are inserted in the
    order they were added and the first violation stops it. *)
Fixpoint flush (now : nat) (objs : list entity) (db : DB)
  : option violation * list entity * DB :=
  match objs with
  | [] => (None, [], db)
  | o :: rest =>
      match insert now o db with
      | (Some v, o', db') => (Some v, o' :: rest, db')
      | (None, o', db') =>
          let '(v, rest', db'') := flush now rest db' in
          (v, o' :: rest', db'')
      end
  end.

(** Other sessions commit one object each; a rejected one leaves no row. *)
Definition others_commit (i : Interference) (db : DB) : DB :=
  fold_left (fun d o => snd (insert (now i) o d)) (others i) db.

(** ** The session *)

Definition log (c : call) (w : World) : list call := trace w ++ [c].

(** [db.session.add(obj)]. *)
Definition session_add (e : entity) : M unit := fun w =>
  (Ok tt, mkWorld (store w) (pending w ++ [e]) (env w) (log (CAdd e) w)
                  (current_user w) (flashes w)).

(** [db.session.rollback()]: the pending objects leave the session. *)
Definition session_rollback : M unit := fun w =>
  (Ok tt, mkWorld (store w) [] (env w) (log CRollback w)
                  (current_user w) (flashes w)).

(** [db.session.commit()].  On success it returns the flushed objects as
    the flush left them (ids and defaults filled in); Python mutates the
    objects in place and returns [None].  A violation undoes the rows of
    the transaction and leaves the objects pending. *)
Definition session_commit : M (list entity) := fun w =>
  let i := hd quiet (env w) in
  let db1 := others_commit i (store w) in
  match fault i with
  | Some exc =>
      (Raise (OtherError exc),
       mkWorld db1 (pending w) (tl (env w)) (log (CCommit false) w)
               (current_user w) (flashes w))
  | None =>
      match flush (now i) (pending w) db1 with
      | (Some v, objs, db2) =>
          (Raise (IntegrityError v),
           mkWorld (mkDB (users db1) (tasks db1)
                         (next_user_id db2) (next_task_id db2))
                   objs (tl (env w)) (log (CCommit false) w)
                   (current_user w) (flashes w))
      | (None, objs, db2) =>
          (Ok objs,
           mkWorld db2 [] (tl (env w)) (log (CCommit true) w)
                   (current_user w) (flashes w))
      end
  end.

End Insert.

(** ** [class User] *)

Module User.
Section Methods.
Context {slugifier : Slugifier} {hasher : PasswordHasher}.

(** [set_password]; [salt] is the salt the hasher draws. *)
Definition set_password (salt password : string) (self : User) : User :=
  mkUser (users_id self) (name self) (email self)
         (Some (generate_password_hash salt password))
         (users_created_at self).

Definition check_password (self : User) (password : string) : result bool :=
  check_password_hash (password_hash self) password.

(** The state of [self] once the commit has flushed it. *)
Definition flushed (self : User) (objs : list entity) : User :=
  match last objs (EUser self) with
  | EUser u => u
  | ETask _ => self
  end.

Definition save (self : User) : M User :=
  session_add (EUser self) ;;;
  objs <- session_commit ;;
  ret (flushed self objs).

(** [db.session.get(User, user_id)]. *)
Definition get_by_id (uid : nat) (w : World) : option User :=
  find (fun u => opt_nat_eqb (users_id u) (Some uid)) (users (store w)).

(** [User.query.filter_by(email=email).first()]. *)
Definition get_by_email (e : string) (w : World) : option User :=
  find (has_email e) (users (store w)).

End Methods.
End User.

(** ** [class Task] *)

Module Task.
Section Methods.
Context {slugifier : Slugifier}.

(** [Task.query.filter_by(slug=slug).first()]. *)
Definition get_by_slug (s : string) (w : World) : option Task :=
  find (has_slug s) (tasks (store w)).

(** [f"{self.id or ''}"]: an id of 0 is falsy too. *)
Definition id_or_empty (self : Task) : string :=
  match id self with
  | Some (S n) => Py.str (S n)
  | _ => ""
  end.

(** The [base] the loop of [_generate_unique_slug] starts from. *)
Definition slug_base (self : Task) : string :=
  let base := slugify (title self) in
  if negb (Py.truthy base) then slugify ("task-" ++ id_or_empty self)
  else base.

(** The [while] loop of [_generate_unique_slug], from the state
    ([slug_candidate], [counter]); [fuel] bounds the iterations. *)
Fixpoint slug_loop (w : World) (base : string) (fuel : nat)
         (slug_candidate : string) (counter : nat) : option string :=
  match fuel with
  | 0 => None
  | S fuel' =>
      match get_by_slug slug_candidate w with
      | Some _ =>
          slug_loop w base fuel' (base ++ "-" ++ Py.str counter) (S counter)
      | None => Some slug_candidate
      end
  end.

(** One more iteration than there are rows is always enough
    ([slug_loop_total] below), so the fallback branch is never taken. *)
Definition _generate_unique_slug (self : Task) (w : World) : string :=
  let base := slug_base self in
  match slug_loop w base (S (length (tasks (store w)))) base 1 with
  | Some s => s
  | None => base
  end.

(** [public_url]; a task always has its slug when this is called. *)
Definition public_url (self : Task) : string :=
  "/task/" ++ match slug self with Some s => s | None => "None" end ++ "/".

(** The state of [self] once the commit has flushed it. *)
Definition flushed (self : Task) (objs : list entity) : Task :=
  match last objs (ETask self) with
  | ETask t => t
  | EUser _ => self
  end.

(** [if not self.slug: self.slug = self._generate_unique_slug()].

    [save] follows.  In the handler [self] has at most had its slug touched by
    the listener of the failed flush, and the handler overwrites the slug,
    so the handler may start from the [self] it was given. *)
Definition assign_slug (self : Task) (w : World) : Task :=
  if slug_missing self
  then set_slug self (Some (_generate_unique_slug self w))
  else self.

Definition save (self : Task) : M Task :=
  self <- gets (assign_slug self) ;;
  session_add (ETask self) ;;;
  try_except_IntegrityError
    (objs <- session_commit ;;
     ret (flushed self objs))
    (session_rollback ;;;
     s <- gets (_generate_unique_slug self) ;;
     let self := set_slug self (Some s) in
     session_add (ETask self) ;;;
     objs <- session_commit ;;
     ret (flushed self objs)).

(** [ORDER BY created_at DESC]: [NULL] sorts first in PostgreSQL. *)
Definition not_older (a b : Task) : bool :=
  match created_at a, created_at b with
  | None, _ => true
  | Some _, None => false
  | Some x, Some y => y <=? x
  end%nat.

(** [Task.query.order_by(Task.created_at.desc()).all()].  The query names
    no second key, and SQL fixes no order among rows with equal keys: the
    store may answer with any arrangement of the rows that is descending
    in [created_at]. *)
Definition get_all (w : World) (answer : list Task) : Prop :=
  Permutation answer (tasks (store w))
  /\ StronglySorted (fun a b => not_older a b = true) answer.

(** The answer of a store that keeps rows with equal keys in insertion
    order: one of the answers [get_all] admits. *)
Fixpoint place (t : Task) (sorted : list Task) : list Task :=
  match sorted with
  | [] => [t]
  | x :: rest =>
      if not_older t x then t :: sorted else x :: place t rest
  end.

Definition get_all_by_insertion (w : World) : list Task :=
  fold_right place [] (tasks (store w)).

End Methods.
End Task.

(** ** Forms ([forms.py]) and the authentication routes ([run.py]) *)

(** What the routes read from the request: whether the method submits a
    form (POST, PUT, PATCH or DELETE), whether the CSRF token of the form
    checks out, and the [next] query argument. *)
Record Request : Type := mkRequest {
  submitted : bool;
  csrf_ok : bool;
  next_arg : option string
}.

(** Field data; a field absent from the request reads as the empty string,
    which [DataRequired] rejects like [None]. *)
Record LoginForm : Type := mkLoginForm {
  login_email : string;
  login_password : string;
  remember_me : bool
}.

Record SignupForm : Type := mkSignupForm {
  signup_name : string;
  signup_email : string;
  signup_password : string
}.

Inductive response : Type :=
| Redirect (location : string)
| RenderTemplate (template : string).

(** [DataRequired()]: the data is truthy and, when a string, not blank. *)
Definition data_required (data : string) : bool :=
  Py.truthy data && Py.truthy (Py.strip data).

(** [Length(min, max)]; [max] is [None] for no upper bound. *)
Definition length_ok (min : nat) (max : option nat) (data : string) : bool :=
  (min <=? String.length data)%nat
  && match max with
     | Some m => (String.length data <=? m)%nat
     | None => true
     end.

Section Routes.
Context {slugifier : Slugifier} {hasher : PasswordHasher}
        {email_validator : EmailValidator} {url_parser : UrlParser}.

Definition validate_login (form : LoginForm) : bool :=
  data_required (login_email form) && data_required (login_password form).

Definition validate_signup (form : SignupForm) : bool :=
  data_required (signup_name form)
  && length_ok 2 (Some 120) (signup_name form)
  && data_required (signup_email form)
  && email_is_valid (signup_email form)
  && data_required (signup_password form)
  && length_ok 6 None (signup_password form).

(** [form.validate_on_submit()]. *)
Definition validate_on_submit (req : Request) (valid : bool) : bool :=
  submitted req && (csrf_ok req && valid).

Definition is_authenticated (w : World) : bool :=
  match current_user w with
  | Some _ => true
  | None => false
  end.

Definition flash (message category : string) : M unit := fun w =>
  (Ok tt, mkWorld (store w) (pending w) (env w) (trace w) (current_user w)
                  (flashes w ++ [(message, category)])).

(** [login_user(user)]: every [User] is active, so this always logs in. *)
Definition login_user (u : User) : M unit := fun w =>
  (Ok tt, mkWorld (store w) (pending w) (env w) (trace w) (Some u)
                  (flashes w)).

(** [url_for('index')]. *)
Definition index_url : string := "/".

(** The tail of [login]: where to go once logged in. *)
Definition after_login (req : Request) : response :=
  match next_arg req with
  | Some next_url =>
      if Py.truthy next_url then
        let '(scheme, netloc) := urlparse next_url in
        if negb (Py.truthy netloc) && negb (Py.truthy scheme)
        then Redirect next_url
        else Redirect index_url
      else Redirect index_url
  | None => Redirect index_url
  end.

Definition invalid_credentials : M response :=
  flash "Invalid credentials" "error" ;;;
  ret (RenderTemplate "login_form.html").

Definition login (req : Request) (form : LoginForm) : M response :=
  authenticated <- gets is_authenticated ;;
  if authenticated : bool then ret (Redirect index_url)
  else if validate_on_submit req (validate_login form) then
    user <- gets (User.get_by_email
                    (Py.lower (Py.strip (login_email form)))) ;;
    match user with
    | None => invalid_credentials
    | Some u =>
        matches <- lift_result (User.check_password u (login_password form)) ;;
        if matches : bool then
          login_user u ;;;
          ret (after_login req)
        else invalid_credentials
    end
  else ret (RenderTemplate "login_form.html").

(** [signup]; [salt] is the salt [set_password] draws. *)
Definition signup (salt : string) (req : Request) (form : SignupForm)
  : M response :=
  authenticated <- gets is_authenticated ;;
  if authenticated : bool then ret (Redirect index_url)
  else if validate_on_submit req (validate_signup form) then
    existing <- gets (User.get_by_email
                        (Py.lower (Py.strip (signup_email form)))) ;;
    match existing with
    | Some _ =>
        flash "Email is already registered" "error" ;;;
        ret (RenderTemplate "admin/signup_form.html")
    | None =>
        let user := mkUser None (Py.strip (signup_name form))
                           (Py.lower (Py.strip (signup_email form)))
                           None None in
        let user := User.set_password salt (signup_password form) user in
        user <- User.save user ;;
        login_user user ;;;
        flash "Welcome! Your account has been created." "success" ;;;
        ret (Redirect index_url)
    end
  else ret (RenderTemplate "admin/signup_form.html").

End Routes.

(** ** Instances for the examples *)

(** A slugifier for plain ASCII titles: letters are lowercased, digits are
    kept, every other run of characters becomes one hyphen, and no hyphen
    is left at either end. *)
Module AsciiSlug.

Definition keep (c : ascii) : option ascii :=
  let n := nat_of_ascii c in
  if ((97 <=? n) && (n <=? 122))%nat then Some c
  else if ((48 <=? n) && (n <=? 57))%nat then Some c
  else if ((65 <=? n) && (n <=? 90))%nat then Some (ascii_of_nat (n + 32))
  else None.

(** [gap] tells whether a separator is owed before the next kept
    character; [started] whether anything has been emitted yet. *)
Fixpoint go (started gap : bool) (s : string) : string :=
  match s with
  | EmptyString => EmptyString
  | String c r =>
      match keep c with
      | Some c' =>
          if started && gap then String "-" (String c' (go true false r))
          else String c' (go true false r)
      | None => go started true r
      end
  end.

Definition slugify (text : string) : string := go false false text.

End AsciiSlug.

Definition ascii_slugifier : Slugifier := AsciiSlug.slugify.

(** A hasher that reads a stored hash the way Werkzeug does, as
    [method$salt$hash]: a string without two dollars verifies nothing, and a
    method it does not know is an error.  The one method it knows stores the
    password itself, whatever the salt. *)
Module PlainHash.

(** [s.split("$", 1)] when [s] holds a dollar. *)
Fixpoint split_dollar (s : string) : option (string * string) :=
  match s with
  | EmptyString => None
  | String c r =>
      if Ascii.eqb c "$" then Some (EmptyString, r)
      else match split_dollar r with
           | Some (before, rest) => Some (String c before, rest)
           | None => None
           end
  end.

Definition generate (salt password : string) : string :=
  "plain$$" ++ password.

Definition check (pwhash : option string) (password : string) : result bool :=
  match pwhash with
  | None => Raise (OtherError "AttributeError")
  | Some h =>
      match split_dollar h with
      | None => Ok false
      | Some (method, rest) =>
          match split_dollar rest with
          | None => Ok false
          | Some (_, hashval) =>
              if String.eqb method "plain"
              then Ok (String.eqb hashval password)
              else Raise (OtherError "ValueError")
          end
      end
  end.

End PlainHash.

Definition plain_hasher : PasswordHasher :=
  Build_PasswordHasher PlainHash.generate PlainHash.check.

(** An address passes when it holds an [@]. *)
Fixpoint has_at (s : string) : bool :=
  match s with
  | EmptyString => false
  | String c r => Ascii.eqb c "@" || has_at r
  end.

Definition at_validator : EmailValidator := has_at.

(** Only site-relative paths are taken to have neither scheme nor host. *)
Definition relative_parser : UrlParser :=
  fun url => if String.prefix "/" url then ("", "") else ("http", "host").

(** ** Vocabulary of the statements *)

(** The [k]-th candidate the loop of [_generate_unique_slug] tries. *)
Definition candidate (base : string) (k : nat) : string :=
  match k with
  | 0 => base
  | S _ => base ++ "-" ++ Py.str k
  end.

(** Some row of [tasks] carries the slug. *)
Definition taken (w : World) (s : string) : Prop :=
  Task.get_by_slug s w <> None.


(** Every row of [tasks] carries a non-empty slug: what the listener
    establishes at each insert. *)
Definition slugs_nonempty (db : DB) : Prop :=
  Forall (fun r => exists s, slug r = Some s /\ s <> "") (tasks db).

(** How often the session was committed, and rolled back, in a trace. *)
Definition commits (tr : list call) : nat :=
  length (filter (fun c => match c with CCommit _ => true | _ => false end) tr).

Definition rollbacks (tr : list call) : nat :=
  length (filter (fun c => match c with CRollback => true | _ => false end) tr).

(** The hasher verifies exactly the password a hash was generated from. *)
Definition verifies_own_password (hasher : PasswordHasher) : Prop :=
  forall salt password attempt,
    check_password_hash (Some (generate_password_hash salt password)) attempt
    = Ok (String.eqb password attempt).

(** The stages of [Task.save], named for the statements: the world in
    which the first commit runs, the task as the handler re-adds it after a
    failed first commit that left the world [failed], and the world in
    which the retried commit runs. *)
Section SaveStages.
Context {slugifier : Slugifier}.

Definition first_attempt (self : Task) (w : World) : World :=
  snd (session_add (ETask (Task.assign_slug self w)) w).

Definition regenerated (self : Task) (w failed : World) : Task :=
  set_slug (Task.assign_slug self w)
           (Some (Task._generate_unique_slug (Task.assign_slug self w)
                    (snd (session_rollback failed)))).

Definition second_attempt (self : Task) (w failed : World) : World :=
  snd (session_add (ETask (regenerated self w failed))
                   (snd (session_rollback failed))).

(** [User.save] has one stage only. *)
Definition user_attempt (self : User) (w : World) : World :=
  snd (session_add (EUser self) w).

End SaveStages.

(** The rows a commit runs against: those of the rivals included. *)
Definition at_commit {slugifier : Slugifier} (w : World) : DB :=
  others_commit (hd quiet (env w)) (store w).

(** A caller that adds a task to the session and commits, without going
    through [Task.save]. *)
Definition direct_insert {slugifier : Slugifier} (t : Task) : M (list entity) :=
  session_add (ETask t) ;;; session_commit.

Definition succeeded {A : Type} (r : result A * World) : bool :=
  match fst r with
  | Ok _ => true
  | Raise _ => false
  end.

(** ** Example data *)

Module Ex.

Definition ann : User :=
  mkUser (Some 1) "Ann" "ann@example.org" (Some "plain$$secret") (Some 10).

(** A task as [create_task] builds it. *)
Definition new_task (owner : nat) (title : string) : Task :=
  mkTask None owner title None None (Some 3) None None None.

(** A committed row of [tasks] owned by [ann]. *)
Definition row (i : nat) (title slug : string) (created : nat) : Task :=
  mkTask (Some i) 1 title None None (Some 3) (Some false) (Some slug)
         (Some created).

(** A clean session over [ann] and the given rows, with a script. *)
Definition world (rows : list Task) (script : list Interference) : World :=
  mkWorld (mkDB [ann] rows 2 (S (length rows))) [] script [] None [].

Definition milk_rows : list Task :=
  [row 1 "Buy milk" "buy-milk" 11; row 2 "Buy milk" "buy-milk-1" 12;
   row 3 "Buy milk" "buy-milk-2" 13].

(** Another session commits a task of the same title first. *)
Definition rival_commit : Interference :=
  mkInterference [ETask (new_task 1 "Buy milk")] 20 None.

(** Another session takes the regenerated slug as well. *)
Definition second_rival_commit : Interference :=
  mkInterference [ETask (set_slug (new_task 1 "Buy milk")
                                  (Some "buy-milk-1"))] 21 None.

Definition connection_lost : Interference :=
  mkInterference [] 22 (Some "OperationalError").

Definition milk : Task := new_task 1 "Buy milk".

(** One rival, two rivals, and a dropped connection. *)
Definition raced : World := world [] [rival_commit].
Definition raced_twice : World := world [] [rival_commit; second_rival_commit].
Definition offline : World := world [] [connection_lost].

Definition raced_failed : World :=
  snd (session_commit (slugifier := ascii_slugifier)
         (first_attempt (slugifier := ascii_slugifier) milk raced)).

(** A task whose owner is no row of [users]. *)
Definition orphan : Task := new_task 7 "Buy milk".

Definition orphan_failed : World :=
  snd (session_commit (slugifier := ascii_slugifier)
         (first_attempt (slugifier := ascii_slugifier) orphan (world [] []))).

(** A second account under the address of [ann]. *)
Definition ann_again : User :=
  mkUser None "Ann B." "ann@example.org" (Some "plain$$hunter2") None.

(** A task that comes with a slug of its own. *)
Definition filed : Task := set_slug (new_task 1 "Buy milk") (Some "errands").

(** Two rows written within the same clock reading. *)
Definition tied : World :=
  world [row 1 "Buy milk" "buy-milk" 11; row 2 "Walk dog" "walk-dog" 11] [].

(** A form post that passes the CSRF check. *)
Definition post : Request := mkRequest true true None.

Definition bea_signup : SignupForm := mkSignupForm " Bea " "A@B.com" "hunter2!".

Definition signed_up : World :=
  snd (signup (slugifier := ascii_slugifier) (hasher := plain_hasher)
              (email_validator := at_validator)
              "salt" post bea_signup (world [] [])).

Definition ann_login (password : string) : LoginForm :=
  mkLoginForm " Ann@Example.org" password false.

End Ex.

(** ** Python's [int] on strings *)

Module PyInt.

Definition is_digit (c : ascii) : bool :=
  let n := nat_of_ascii c in ((48 <=? n) && (n <=? 57))%nat.

(** The digits of a numeral in which single underscores may separate
    digits; [None] when the grouping is wrong or a character is no digit.
    [after_digit] tells whether the previous character was a digit. *)
Fixpoint digits (after_digit : bool) (s : string) : option string :=
  match s with
  | EmptyString => if after_digit then Some EmptyString else None
  | String c r =>
      if is_digit c then option_map (String c) (digits true r)
      else if Ascii.eqb c "_" then
             if after_digit then digits false r else None
      else None
  end.

(** [int(s)]: blanks around the numeral are dropped, a sign may lead it.
    [None] stands for the [ValueError] of a string that is no numeral.
    CPython raises the same error for a numeral of more than 4300 digits;
    the statements below keep to strings shorter than that. *)
Definition of_string (s : string) : option Z :=
  let s := Py.strip s in
  let '(negative, body) :=
    match s with
    | String "+" r => (false, r)
    | String "-" r => (true, r)
    | _ => (false, s)
    end in
  match digits false body with
  | None => None
  | Some ds =>
      match NilEmpty.uint_of_string ds with
      | Some d =>
          let n := Z.of_nat (Nat.of_uint d) in
          Some (if negative : bool then (- n)%Z else n)
      | None => None
      end
  end.

End PyInt.

(** ** The other routes of [run.py] *)

(** What a view hands back: a redirect, a template with the tasks passed
    to it, or [abort(404)], which the [not_found] handler answers with
    [404.html] and status 404. *)
Inductive page : Type :=
| Location (url : string)
| Template (name : string) (shown : list Task)
| NotFound.

(** Flask-Login's answer to an anonymous visitor of a protected view. *)
Class LoginManager := unauthorized : M page.

(** The fields of [TaskForm] as WTForms has processed them: the due date
    is blank, unreadable as [%Y-%m-%d], or a date; the priority is [None]
    when the input is no integer, and the form's default 3 when the request
    carries none. *)
Inductive date_field : Type :=
| DateBlank
| DateInvalid
| DateValue (d : nat).

Record TaskForm : Type := mkTaskForm {
  task_title : string;
  task_description : option string;
  task_due_date : date_field;
  task_priority : option Z
}.

(** [Optional()]: a field that is absent or blank stops the chain. *)
Definition optional_blank (raw : option string) : bool :=
  match raw with
  | None => true
  | Some s => negb (Py.truthy (Py.strip s))
  end.

(** [NumberRange(min, max)] behind [DataRequired()], for which 0 is no
    data. *)
Definition number_ok (min max : Z) (data : option Z) : bool :=
  match data with
  | Some n => (negb (n =? 0) && (min <=? n) && (n <=? max))%Z
  | None => false
  end.

Definition validate_task (form : TaskForm) : bool :=
  data_required (task_title form)
  && length_ok 3 (Some 200) (task_title form)
  && (optional_blank (task_description form)
      || length_ok 0 (Some 5000)
           (match task_description form with Some s => s | None => EmptyString end))
  && match task_due_date form with
     | DateInvalid => false
     | _ => true
     end
  && number_ok 1 5 (task_priority form).

Section TaskRoutes.
Context {slugifier : Slugifier} {login_manager : LoginManager}.

(** [@login_required]. *)
Definition login_required (view : M page) : M page :=
  authenticated <- gets is_authenticated ;;
  if authenticated : bool then view else unauthorized.

(** [load_user]: the lookup by primary key; no row has a negative key. *)
Definition load_user (user_id : string) (w : World) : option User :=
  match PyInt.of_string user_id with
  | Some key =>
      if (key <? 0)%Z then None else User.get_by_id (Z.to_nat key) w
  | None => None
  end.

Definition task_detail (slug : string) : M page :=
  task <- gets (Task.get_by_slug slug) ;;
  match task with
  | None => ret NotFound
  | Some t => ret (Template "task_view.html" [t])
  end.

(** [logout_user()]. *)
Definition logout_user : M unit := fun w =>
  (Ok tt, mkWorld (store w) (pending w) (env w) (trace w) None (flashes w)).

Definition logout : M page :=
  login_required (logout_user ;;; ret (Location index_url)).

(** [create_task].  [current_user] is a row of [users] or a flushed object,
    so it has its id; without one the insert could only fail on the
    [NOT NULL] constraint of [user_id], and the anonymous user has no [id]
    attribute at all. *)
Definition create_task (req : Request) (form : TaskForm) : M page :=
  login_required
    (if validate_on_submit req (validate_task form) then
       user <- gets current_user ;;
       match user with
       | Some u =>
           match users_id u with
           | Some uid =>
               let task :=
                 mkTask None uid (Py.strip (task_title form))
                        (task_description form)
                        (match task_due_date form with
                         | DateValue d => Some d
                         | _ => None
                         end)
                        (option_map Z.to_nat (task_priority form))
                        None None None in
               task <- Task.save task ;;
               flash "Task created successfully" "success" ;;;
               ret (Location (Task.public_url task))
           | None => raise (IntegrityError (NotNullViolation "tasks" "user_id"))
           end
       | None => raise (OtherError "AttributeError")
       end
     else ret (Template "admin/task_form.html" [])).

End TaskRoutes.

(** ** Vocabulary of the further statements *)

(** No two stored tasks share a slug; no two stored users an address. *)
Definition slugs_unique (db : DB) : Prop := NoDup (map slug (tasks db)).
Definition emails_unique (db : DB) : Prop := NoDup (map email (users db)).

(** No two rows of a table share a primary key. *)
Definition keys_unique (db : DB) : Prop :=
  NoDup (map id (tasks db)) /\ NoDup (map users_id (users db)).

(** Every stored task is owned by a stored user. *)
Definition has_id (n : nat) (u : User) : bool := opt_nat_eqb (users_id u) (Some n).

Definition owners_stored (db : DB) : Prop :=
  Forall (fun t => existsb (has_id (user_id t)) (users db) = true) (tasks db).


(** A property of the two tables, read off a database. *)
Definition rows_satisfy (P : list User -> list Task -> Prop) (db : DB) : Prop :=
  P (users db) (tasks db).






(** A string starts clean when it is empty or its first character is no
    blank. *)
Definition starts_clean (s : string) : Prop :=
  match s with
  | EmptyString => True
  | String c _ => Py.isspace c = false
  end.

(** A string [strip()] leaves alone. *)
Definition trimmed (s : string) : Prop := Py.strip s = s.

(** The account [signup] builds from a form before it saves it. *)
Definition new_account {hasher : PasswordHasher} (salt : string)
           (form : SignupForm) : User :=
  User.set_password salt (signup_password form)
    (mkUser None (Py.strip (signup_name form))
            (Py.lower (Py.strip (signup_email form))) None None).

(** ** Further example data *)

Module Sample.

(** [ann] is logged in. *)
Definition ann_session (rows : list Task) (script : list Interference) : World :=
  mkWorld (mkDB [Ex.ann] rows 2 (S (length rows))) [] script [] (Some Ex.ann) [].

Definition chores : TaskForm :=
  mkTaskForm "  Walk the dog " (Some "twice") (DateValue 366) (Some 2%Z).

(** Flask-Login sends the visitor to the login view. *)
Definition to_login : LoginManager := fun w =>
  (Ok (Location "/login"),
   mkWorld (store w) (pending w) (env w) (trace w) (current_user w)
           (flashes w ++ [("Please log in to access this page.", "message")])).

(** [ann] posts [chores]. *)
Definition chores_created : World :=
  snd (create_task (slugifier := ascii_slugifier) (login_manager := to_login)
         Ex.post chores (ann_session [] [])).

End Sample.

(** ** Strings and candidates *)

Lemma truthy_iff (s : string) : Py.truthy s = true <-> s <> "".
Proof.
  destruct s; simpl; split; intro H; try discriminate; auto.
Qed.


Lemma str_inj (a b : nat) : Py.str a = Py.str b -> a = b.
Proof.
  unfold Py.str. intro E.
  assert (U : Some (Nat.to_uint a) = Some (Nat.to_uint b)).
  { rewrite <- !NilEmpty.usu. now rewrite E. }
  injection U as U.
  rewrite <- (Unsigned.of_to a), <- (Unsigned.of_to b). now rewrite U.
Qed.

Lemma append_cancel_l (p x y : string) : (p ++ x = p ++ y)%string -> x = y.
Proof.
  induction p as [|c p IH]; simpl; intro E; [assumption|].
  injection E as E. now apply IH.
Qed.

Lemma append_length (a b : string) :
  String.length (a ++ b)%string = String.length a + String.length b.
Proof. induction a; simpl; congruence. Qed.

Lemma candidate_inj (base : string) (j k : nat) :
  candidate base j = candidate base k -> j = k.
Proof.
  destruct j as [|j], k as [|k]; simpl; intro E; trivial.
  - apply (f_equal String.length) in E.
    rewrite append_length in E. simpl in E. lia.
  - apply (f_equal String.length) in E.
    rewrite append_length in E. simpl in E. lia.
  - apply append_cancel_l in E. injection E as E. now apply str_inj.
Qed.

Lemma candidates_NoDup (base : string) (n : nat) :
  NoDup (map (candidate base) (seq 0 n)).
Proof.
  apply Finite.Injective_map_NoDup.
  - intros j k. apply candidate_inj.
  - apply seq_NoDup.
Qed.

(** ** The loop of [_generate_unique_slug] *)

Section SlugLoop.
Context {slugifier : Slugifier}.
Variable w : World.
Variable base : string.

Lemma taken_In (s : string) :
  taken w s -> In (Some s) (map slug (tasks (store w))).
Proof.
  unfold taken, Task.get_by_slug. intro T.
  destruct (find (has_slug s) (tasks (store w))) as [r|] eqn:F; [|easy].
  apply find_some in F as [I E].
  apply in_map_iff. exists r. split; [|assumption].
  unfold has_slug in E. destruct (slug r) as [s'|]; [|discriminate].
  apply String.eqb_eq in E. now subst.
Qed.

(** As many candidates can be taken as there are rows, and no more. *)
Lemma taken_bound (n : nat) :
  (forall j, j < n -> taken w (candidate base j)) ->
  n <= length (tasks (store w)).
Proof.
  intro T.
  replace n with (length (map Some (map (candidate base) (seq 0 n))))
    by now rewrite !length_map, length_seq.
  rewrite <- (length_map slug (tasks (store w))).
  apply NoDup_incl_length.
  - apply Finite.Injective_map_NoDup; [|apply candidates_NoDup].
    intros a b E. now injection E.
  - intros x I. apply in_map_iff in I as [s [<- I]].
    apply in_map_iff in I as [j [<- I]].
    apply in_seq in I. apply taken_In, T. lia.
Qed.

(** The loop, started at candidate [k], walks over the taken candidates
    and stops at the first free one, fuel permitting. *)
Lemma slug_loop_run (m : nat) :
  forall k fuel,
    k <= m -> m - k < fuel ->
    (forall j, k <= j < m -> taken w (candidate base j)) ->
    Task.get_by_slug (candidate base m) w = None ->
    Task.slug_loop w base fuel (candidate base k) (S k)
    = Some (candidate base m).
Proof.
  intros k fuel. revert k.
  induction fuel as [|fuel IH]; intros k Hk Hf T F; [lia|].
  simpl.
  destruct (Nat.eq_dec k m) as [->|N].
  - now rewrite F.
  - destruct (Task.get_by_slug (candidate base k) w) eqn:G.
    + apply (IH (S k)); [lia|lia| |assumption].
      intros j Hj. apply T. lia.
    + exfalso. apply (T k); [lia|assumption].
Qed.

(** Running out of fuel means every candidate tried was taken. *)
Lemma slug_loop_None (fuel : nat) :
  forall k,
    Task.slug_loop w base fuel (candidate base k) (S k) = None ->
    forall j, k <= j < k + fuel -> taken w (candidate base j).
Proof.
  induction fuel as [|fuel IH]; intros k L j Hj; [lia|].
  simpl in L.
  destruct (Task.get_by_slug (candidate base k) w) eqn:G; [|discriminate].
  destruct (Nat.eq_dec j k) as [->|N].
  - unfold taken. now rewrite G.
  - apply (IH (S k)); [exact L|lia].
Qed.

Lemma slug_loop_Some (fuel : nat) :
  forall k s,
    Task.slug_loop w base fuel (candidate base k) (S k) = Some s ->
    exists m, s = candidate base m /\ k <= m
              /\ Task.get_by_slug s w = None
              /\ forall j, k <= j < m -> taken w (candidate base j).
Proof.
  induction fuel as [|fuel IH]; intros k s L; [discriminate|].
  simpl in L.
  destruct (Task.get_by_slug (candidate base k) w) eqn:G.
  - apply (IH (S k)) in L as [m [E [Hm [F T]]]].
    exists m. repeat split; try assumption; [lia|].
    intros j Hj. destruct (Nat.eq_dec j k) as [->|N].
    + unfold taken. now rewrite G.
    + apply T. lia.
  - injection L as <-. exists k. repeat split; try assumption; [lia|].
    intros j Hj. lia.
Qed.

(** The loop terminates within one more iteration than there are rows. *)
Lemma slug_loop_total :
  exists m,
    Task.slug_loop w base (S (length (tasks (store w)))) base 1
    = Some (candidate base m)
    /\ Task.get_by_slug (candidate base m) w = None
    /\ forall j, j < m -> taken w (candidate base j).
Proof.
  destruct (Task.slug_loop w base (S (length (tasks (store w)))) base 1)
    as [s|] eqn:L.
  - apply (slug_loop_Some _ 0) in L as [m [-> [_ [F T]]]].
    exists m. repeat split; [assumption|].
    intros j Hj. apply T. lia.
  - exfalso.
    assert (B := taken_bound (S (length (tasks (store w))))).
    enough (S (length (tasks (store w))) <= length (tasks (store w))) by lia.
    apply B. intros j Hj.
    apply (slug_loop_None _ 0 L). lia.
Qed.

End SlugLoop.

(** ** [_generate_unique_slug] *)

Section GenerateUniqueSlug.
Context {slugifier : Slugifier}.

Lemma slug_base_of_token (self : Task) :
  slugify (title self) <> "" -> Task.slug_base self = slugify (title self).
Proof.
  intro N. unfold Task.slug_base.
  apply truthy_iff in N. now rewrite N.
Qed.

(** The method always returns a candidate no row carries: the first free
    one in the order the loop tries them. *)
Lemma generate_unique_slug_first_free (self : Task) (w : World) :
  exists m,
    Task._generate_unique_slug self w = candidate (Task.slug_base self) m
    /\ Task.get_by_slug (Task._generate_unique_slug self w) w = None
    /\ forall j, j < m -> taken w (candidate (Task.slug_base self) j).
Proof.
  destruct (slug_loop_total w (Task.slug_base self)) as [m [L [F T]]].
  exists m. unfold Task._generate_unique_slug. rewrite L. auto.
Qed.

Lemma generate_unique_slug_at (self : Task) (w : World) (m : nat) :
  (forall j, j < m -> taken w (candidate (Task.slug_base self) j)) ->
  Task.get_by_slug (candidate (Task.slug_base self) m) w = None ->
  Task._generate_unique_slug self w = candidate (Task.slug_base self) m.
Proof.
  intros T F. unfold Task._generate_unique_slug.
  assert (B : m <= length (tasks (store w)))
    by now apply (taken_bound w (Task.slug_base self)).
  assert (R := slug_loop_run w (Task.slug_base self) m 0
                 (S (length (tasks (store w))))).
  change (candidate (Task.slug_base self) 0) with (Task.slug_base self) in R.
  cbv zeta. rewrite R; trivial; try lia.
  intros j Hj. apply T. lia.
Qed.

End GenerateUniqueSlug.

(** C3. For every title whose slugified token is non-empty, if no existing
    task has that token as its slug, [_generate_unique_slug] returns the
    token itself, with no numeric suffix. *)
Theorem generate_unique_slug_returns_free_token
    {slugifier : Slugifier} (self : Task) (w : World) :
  slugify (title self) <> "" ->
  Task.get_by_slug (slugify (title self)) w = None ->
  Task._generate_unique_slug self w = slugify (title self).
Proof.
  intros N F.
  rewrite <- (slug_base_of_token self N) in F |- *.
  apply (generate_unique_slug_at self w 0); [|exact F].
  intros j Hj. lia.
Qed.

Lemma generate_unique_slug_returns_free_token_witness :
  Task._generate_unique_slug (slugifier := ascii_slugifier)
    (Ex.new_task 1 "Buy milk") (Ex.world [] []) = "buy-milk".
Proof.
  apply (generate_unique_slug_returns_free_token
           (slugifier := ascii_slugifier)
           (Ex.new_task 1 "Buy milk") (Ex.world [] [])).
  - vm_compute. discriminate.
  - reflexivity.
Defined.

(** C2. For every title whose slugified token is [base], if exactly the
    [N] slugs [base], [base-1], ..., [base-(N-1)] already exist in the task
    store (and the next candidate of the loop, [base-N], does not),
    [_generate_unique_slug] returns [base-N].  The store is one whose rows
    all went through the listener, so no slug in it is empty; the list of
    existing slugs starts with [base] itself, so [N] is at least 1. *)
Theorem generate_unique_slug_appends_next_suffix
    {slugifier : Slugifier} (self : Task) (w : World)
    (base : string) (N : nat) :
  slugs_nonempty (store w) ->
  slugify (title self) = base ->
  1 <= N ->
  (forall k, k < N -> taken w (candidate base k)) ->
  Task.get_by_slug (candidate base N) w = None ->
  Task._generate_unique_slug self w = (base ++ "-" ++ Py.str N)%string.
Proof.
  intros I E HN T F.
  assert (NE : base <> "").
  { assert (T0 : taken w (candidate base 0)) by (apply T; lia).
    apply taken_In in T0. simpl in T0.
    apply in_map_iff in T0 as [r [S R]].
    unfold slugs_nonempty in I. rewrite Forall_forall in I.
    destruct (I r R) as [s [S' NE]]. congruence. }
  assert (B : Task.slug_base self = base).
  { rewrite <- E. apply slug_base_of_token. now rewrite E. }
  rewrite <- B in T, F.
  rewrite (generate_unique_slug_at self w N T F), B.
  destruct N; [lia|reflexivity].
Qed.

Lemma generate_unique_slug_appends_next_suffix_witness :
  Task._generate_unique_slug (slugifier := ascii_slugifier)
    (Ex.new_task 1 "Buy milk") (Ex.world Ex.milk_rows []) = "buy-milk-3".
Proof.
  apply (generate_unique_slug_appends_next_suffix
           (slugifier := ascii_slugifier)
           (Ex.new_task 1 "Buy milk") (Ex.world Ex.milk_rows [])
           "buy-milk" 3).
  - repeat constructor; eexists; (split; [reflexivity|discriminate]).
  - reflexivity.
  - lia.
  - intros k Hk.
    destruct k as [|[|[|k]]]; [vm_compute; discriminate ..|lia].
  - reflexivity.
Defined.

(** ** The session *)

Section Session.
Context {slugifier : Slugifier}.

Lemma trace_session_commit (w : World) :
  trace (snd (session_commit w))
  = trace w ++ [CCommit (succeeded (session_commit w))].
Proof.
  unfold session_commit, succeeded, log.
  destruct (fault (hd quiet (env w))); [reflexivity|].
  destruct (flush _ _ _) as [[[v|] objs] db2]; reflexivity.
Qed.

Lemma session_commit_Raise (w w' : World) (e : exn) :
  session_commit w = (Raise e, w') -> succeeded (session_commit w) = false.
Proof. intro E. now rewrite E. Qed.

Lemma session_commit_Ok (w w' : World) (objs : list entity) :
  session_commit w = (Ok objs, w') -> succeeded (session_commit w) = true.
Proof. intro E. now rewrite E. Qed.

(** *** The three ways through [Task.save] *)

Lemma task_save_first_commit_ok (self : Task) (w w' : World) objs :
  session_commit (first_attempt self w) = (Ok objs, w') ->
  Task.save self w = (Ok (Task.flushed (Task.assign_slug self w) objs), w').
Proof.
  unfold first_attempt. intro C.
  unfold Task.save, bind, gets, try_except_IntegrityError. simpl in *.
  unfold bind. now rewrite C.
Qed.

Lemma task_save_first_commit_other (self : Task) (w w' : World) exc :
  session_commit (first_attempt self w) = (Raise (OtherError exc), w') ->
  Task.save self w = (Raise (OtherError exc), w').
Proof.
  unfold first_attempt. intro C.
  unfold Task.save, bind, gets, try_except_IntegrityError. simpl in *.
  unfold bind. now rewrite C.
Qed.

Lemma task_save_first_commit_violation (self : Task) (w failed : World) v :
  session_commit (first_attempt self w) = (Raise (IntegrityError v), failed) ->
  Task.save self w
  = match session_commit (second_attempt self w failed) with
    | (Ok objs, w') => (Ok (Task.flushed (regenerated self w failed) objs), w')
    | (Raise e, w') => (Raise e, w')
    end.
Proof.
  unfold first_attempt, second_attempt, regenerated. intro C.
  unfold Task.save, bind, gets, try_except_IntegrityError. simpl in *.
  unfold bind. rewrite C. simpl.
  destruct (session_commit _) as [[objs|e] w']; reflexivity.
Qed.

Lemma trace_first_attempt (self : Task) (w : World) :
  trace (first_attempt self w)
  = trace w ++ [CAdd (ETask (Task.assign_slug self w))].
Proof. reflexivity. Qed.

Lemma trace_second_attempt (self : Task) (w failed : World) :
  trace (second_attempt self w failed)
  = trace failed ++ [CRollback; CAdd (ETask (regenerated self w failed))].
Proof.
  unfold second_attempt, session_add, session_rollback, log. simpl.
  now rewrite <- app_assoc.
Qed.

(** After a violation at the first commit the session sees, in this
    order: the add, the failed commit, the rollback, the add of the task
    with its regenerated slug, and the one retried commit. *)
Lemma trace_task_save_retry (self : Task) (w failed : World) v :
  session_commit (first_attempt self w) = (Raise (IntegrityError v), failed) ->
  trace (snd (Task.save self w))
  = trace w
    ++ [CAdd (ETask (Task.assign_slug self w)); CCommit false; CRollback;
        CAdd (ETask (regenerated self w failed));
        CCommit (succeeded (session_commit (second_attempt self w failed)))].
Proof.
  intro C. rewrite (task_save_first_commit_violation self w failed v C).
  assert (T2 := trace_session_commit (second_attempt self w failed)).
  assert (T1 := trace_session_commit (first_attempt self w)).
  rewrite (session_commit_Raise _ _ _ C), C, trace_first_attempt in T1.
  simpl in T1.
  rewrite trace_second_attempt, T1 in T2.
  destruct (session_commit (second_attempt self w failed)) as [[objs|e] w'];
    simpl in *; rewrite T2, <- !app_assoc; reflexivity.
Qed.

Lemma pending_second_attempt (self : Task) (w failed : World) :
  pending (second_attempt self w failed) = [ETask (regenerated self w failed)].
Proof. reflexivity. Qed.

End Session.

(** C1. If [Task.save] hits a uniqueness-constraint failure when persisting
    a task, it rolls back the session, regenerates the slug, and retries the
    persist exactly once; a failure of the retried persist itself propagates
    to the caller as a terminal error (no second retry). *)
Theorem task_save_retries_once_on_unique_violation
    {slugifier : Slugifier} (self : Task) (w failed : World)
    (table column : string) :
  session_commit (first_attempt self w)
  = (Raise (IntegrityError (UniqueViolation table column)), failed) ->
  trace (snd (Task.save self w))
  = trace w
    ++ [CAdd (ETask (Task.assign_slug self w)); CCommit false; CRollback;
        CAdd (ETask (regenerated self w failed));
        CCommit (succeeded (session_commit (second_attempt self w failed)))]
  /\ pending (snd (session_rollback failed)) = []
  /\ slug (regenerated self w failed)
     = Some (Task._generate_unique_slug (Task.assign_slug self w)
               (snd (session_rollback failed)))
  /\ (forall e w',
        session_commit (second_attempt self w failed) = (Raise e, w') ->
        Task.save self w = (Raise e, w'))
  /\ (forall objs w',
        session_commit (second_attempt self w failed) = (Ok objs, w') ->
        Task.save self w
        = (Ok (Task.flushed (regenerated self w failed) objs), w')).
Proof.
  intro C. split; [|split; [|split; [|split]]].
  - exact (trace_task_save_retry self w failed _ C).
  - reflexivity.
  - reflexivity.
  - intros e w' C2.
    rewrite (task_save_first_commit_violation self w failed _ C). now rewrite C2.
  - intros objs w' C2.
    rewrite (task_save_first_commit_violation self w failed _ C). now rewrite C2.
Qed.

Lemma task_save_retries_once_on_unique_violation_witness :
  session_commit (slugifier := ascii_slugifier)
    (first_attempt (slugifier := ascii_slugifier) Ex.milk Ex.raced)
  = (Raise (IntegrityError (UniqueViolation "tasks" "slug")), Ex.raced_failed)
  /\ commits (trace (snd (Task.save (slugifier := ascii_slugifier)
                            Ex.milk Ex.raced))) = 2
  /\ slug (regenerated (slugifier := ascii_slugifier)
             Ex.milk Ex.raced Ex.raced_failed) = Some "buy-milk-1".
Proof.
  assert (C : session_commit (slugifier := ascii_slugifier)
                (first_attempt (slugifier := ascii_slugifier) Ex.milk Ex.raced)
              = (Raise (IntegrityError (UniqueViolation "tasks" "slug")),
                 Ex.raced_failed)) by reflexivity.
  destruct (task_save_retries_once_on_unique_violation
              (slugifier := ascii_slugifier)
              Ex.milk Ex.raced Ex.raced_failed "tasks" "slug" C)
    as [T [_ [S _]]].
  split; [exact C|split].
  - rewrite T. reflexivity.
  - rewrite S. reflexivity.
Defined.

(** When a second rival takes the regenerated slug too, the retried commit
    fails and [Task.save] raises: there is no third attempt. *)
Example task_save_gives_up_after_second_collision :
  fst (Task.save (slugifier := ascii_slugifier) Ex.milk Ex.raced_twice)
  = Raise (IntegrityError (UniqueViolation "tasks" "slug"))
  /\ commits (trace (snd (Task.save (slugifier := ascii_slugifier)
                            Ex.milk Ex.raced_twice))) = 2.
Proof. split; reflexivity. Qed.

(** C4, as stated, fails: a foreign-key violation at the first commit of
    [Task.save] is caught by the same handler, so the session is rolled back
    and the commit is retried before the error reaches the caller. *)
Lemma task_save_retries_after_foreign_key_violation :
  session_commit (slugifier := ascii_slugifier)
    (first_attempt (slugifier := ascii_slugifier) Ex.orphan (Ex.world [] []))
  = (Raise (IntegrityError (ForeignKeyViolation "tasks" "user_id")),
     Ex.orphan_failed)
  /\ rollbacks (trace (snd (Task.save (slugifier := ascii_slugifier)
                              Ex.orphan (Ex.world [] [])))) = 1
  /\ commits (trace (snd (Task.save (slugifier := ascii_slugifier)
                            Ex.orphan (Ex.world [] [])))) = 2
  /\ fst (Task.save (slugifier := ascii_slugifier) Ex.orphan (Ex.world [] []))
     = Raise (IntegrityError (ForeignKeyViolation "tasks" "user_id")).
Proof. repeat split; reflexivity. Qed.

Section UserSave.
Context {slugifier : Slugifier}.

Lemma user_save_commit_error (self : User) (w w' : World) (e : exn) :
  session_commit (user_attempt self w) = (Raise e, w') ->
  User.save self w = (Raise e, w').
Proof.
  unfold user_attempt. intro C.
  unfold User.save, bind. simpl in *. now rewrite C.
Qed.

Lemma user_save_commit_ok (self : User) (w w' : World) objs :
  session_commit (user_attempt self w) = (Ok objs, w') ->
  User.save self w = (Ok (User.flushed self objs), w').
Proof.
  unfold user_attempt. intro C.
  unfold User.save, bind. simpl in *. now rewrite C.
Qed.

End UserSave.

(** C4, amended. [Task.save] retries once after any [IntegrityError] of
    its first commit, whatever the constraint; the outcome of the retried
    commit is final.  Any other error of the first commit propagates at
    once, with no rollback and no retry.  [User.save] never retries: every
    error of its commit propagates. *)
Theorem only_integrity_errors_of_task_save_are_retried
    {slugifier : Slugifier} :
  (forall (self : Task) (w failed : World) (v : violation),
      session_commit (first_attempt self w)
      = (Raise (IntegrityError v), failed) ->
      trace (snd (Task.save self w))
      = trace w
        ++ [CAdd (ETask (Task.assign_slug self w)); CCommit false; CRollback;
            CAdd (ETask (regenerated self w failed));
            CCommit (succeeded (session_commit
                                  (second_attempt self w failed)))]
      /\ forall e w',
          session_commit (second_attempt self w failed) = (Raise e, w') ->
          Task.save self w = (Raise e, w'))
  /\ (forall (self : Task) (w w' : World) (exc : string),
        session_commit (first_attempt self w) = (Raise (OtherError exc), w') ->
        Task.save self w = (Raise (OtherError exc), w')
        /\ trace w'
           = trace w ++ [CAdd (ETask (Task.assign_slug self w)); CCommit false])
  /\ (forall (self : User) (w w' : World) (e : exn),
        session_commit (user_attempt self w) = (Raise e, w') ->
        User.save self w = (Raise e, w')
        /\ trace w' = trace w ++ [CAdd (EUser self); CCommit false]).
Proof.
  split; [|split].
  - intros self w failed v C. split.
    + exact (trace_task_save_retry self w failed v C).
    + intros e w' C2.
      rewrite (task_save_first_commit_violation self w failed v C).
      now rewrite C2.
  - intros self w w' exc C. split.
    + exact (task_save_first_commit_other self w w' exc C).
    + assert (T := trace_session_commit (first_attempt self w)).
      rewrite (session_commit_Raise _ _ _ C), C, trace_first_attempt in T.
      simpl in T. rewrite T, <- app_assoc. reflexivity.
  - intros self w w' e C. split.
    + exact (user_save_commit_error self w w' e C).
    + assert (T := trace_session_commit (user_attempt self w)).
      rewrite (session_commit_Raise _ _ _ C), C in T. simpl in T.
      rewrite T. unfold user_attempt, session_add, log. simpl.
      rewrite <- app_assoc. reflexivity.
Qed.

Lemma only_integrity_errors_of_task_save_are_retried_witness :
  commits (trace (snd (Task.save (slugifier := ascii_slugifier)
                         Ex.orphan (Ex.world [] [])))) = 2
  /\ Task.save (slugifier := ascii_slugifier) Ex.milk Ex.offline
     = (Raise (OtherError "OperationalError"),
        snd (session_commit (slugifier := ascii_slugifier)
               (first_attempt (slugifier := ascii_slugifier)
                  Ex.milk Ex.offline)))
  /\ fst (User.save (slugifier := ascii_slugifier) Ex.ann_again (Ex.world [] []))
     = Raise (IntegrityError (UniqueViolation "users" "email")).
Proof.
  destruct (only_integrity_errors_of_task_save_are_retried
              (slugifier := ascii_slugifier)) as [A [B C]].
  split; [|split].
  - destruct (A Ex.orphan (Ex.world [] []) Ex.orphan_failed
                (ForeignKeyViolation "tasks" "user_id") eq_refl) as [T _].
    rewrite T. reflexivity.
  - apply (B Ex.milk Ex.offline _ "OperationalError"). reflexivity.
  - destruct (C Ex.ann_again (Ex.world [] [])
                (snd (session_commit (slugifier := ascii_slugifier)
                        (user_attempt Ex.ann_again (Ex.world [] []))))
                (IntegrityError (UniqueViolation "users" "email")) eq_refl)
      as [S _].
    rewrite S. reflexivity.
Defined.

(** ** What a successful commit of one object leaves behind *)

Section CommitOne.
Context {slugifier : Slugifier}.

Lemma find_app_last {A : Type} (f : A -> bool) (l : list A) (x : A) :
  existsb f l = false -> f x = true -> find f (l ++ [x]) = Some x.
Proof.
  induction l as [|a l IH]; simpl; intros E F.
  - now rewrite F.
  - apply orb_false_iff in E as [Ea El]. rewrite Ea. now apply IH.
Qed.

Lemma insert_task_ok (stamp : nat) (t row : Task) (db db' : DB) :
  insert_task stamp t db = (None, row, db') ->
  exists s,
    slug row = Some s
    /\ existsb (has_slug s) (tasks db) = false
    /\ tasks db' = tasks db ++ [row]
    /\ users db' = users db.
Proof.
  unfold insert_task.
  destruct (draw _ _) as [new_id seq].
  destruct (slug (task_before_insert t)) as [s|]; [|discriminate].
  destruct (existsb (fun r => opt_nat_eqb (id r) (Some new_id)) (tasks db));
    [discriminate|].
  destruct (existsb (has_slug s) (tasks db)) eqn:U; [discriminate|].
  destruct (negb _); [discriminate|].
  intro E. injection E as <- <-. exists s. auto.
Qed.

Lemma insert_user_ok (stamp : nat) (u row : User) (db db' : DB) :
  insert_user stamp u db = (None, row, db') ->
  email row = email u
  /\ password_hash row = password_hash u
  /\ name row = name u
  /\ existsb (has_email (email u)) (users db) = false
  /\ users db' = users db ++ [row]
  /\ tasks db' = tasks db.
Proof.
  unfold insert_user.
  destruct (draw _ _) as [new_id seq].
  destruct (password_hash u) as [h|] eqn:P; [|discriminate].
  destruct (existsb (fun r => opt_nat_eqb (users_id r) (Some new_id)) (users db));
    [discriminate|].
  destruct (existsb (has_email (email u)) (users db)) eqn:U; [discriminate|].
  intro E. injection E as <- <-. simpl. auto 6.
Qed.

Lemma commit_one_task (w w' : World) (t : Task) (objs : list entity) :
  pending w = [ETask t] ->
  session_commit w = (Ok objs, w') ->
  exists row s,
    objs = [ETask row]
    /\ slug row = Some s
    /\ existsb (has_slug s) (tasks (at_commit w)) = false
    /\ tasks (store w') = tasks (at_commit w) ++ [row].
Proof.
  intros P. unfold session_commit, at_commit.
  destruct (fault (hd quiet (env w))); [discriminate|].
  rewrite P. simpl.
  destruct (insert_task _ t _) as [[[v|] row] db'] eqn:I; [discriminate|].
  intro E. injection E as <- <-. simpl.
  apply insert_task_ok in I as [s [S [U [T _]]]].
  exists row, s. auto.
Qed.

Lemma commit_one_user (w w' : World) (u : User) (objs : list entity) :
  pending w = [EUser u] ->
  session_commit w = (Ok objs, w') ->
  exists row,
    objs = [EUser row]
    /\ email row = email u
    /\ password_hash row = password_hash u
    /\ existsb (has_email (email u)) (users (at_commit w)) = false
    /\ users (store w') = users (at_commit w) ++ [row]
    /\ current_user w' = current_user w.
Proof.
  intros P. unfold session_commit, at_commit.
  destruct (fault (hd quiet (env w))); [discriminate|].
  rewrite P. simpl.
  destruct (insert_user _ u _) as [[[v|] row] db'] eqn:I; [discriminate|].
  intro E. injection E as <- <-. simpl.
  apply insert_user_ok in I as [Em [Ph [_ [U [T _]]]]].
  exists row. auto 7.
Qed.

Lemma get_by_slug_of_committed (w w' : World) (t : Task) objs :
  pending w = [ETask t] ->
  session_commit w = (Ok objs, w') ->
  exists s, slug (Task.flushed t objs) = Some s
            /\ Task.get_by_slug s w' = Some (Task.flushed t objs).
Proof.
  intros P C.
  destruct (commit_one_task w w' t objs P C) as [row [s [-> [S [U T]]]]].
  exists s. unfold Task.flushed, Task.get_by_slug. simpl.
  split; [assumption|].
  rewrite T. apply find_app_last; [assumption|].
  unfold has_slug. rewrite S. apply String.eqb_refl.
Qed.

End CommitOne.

(** C6. For every task persisted via [Task.save], calling
    [Task.get_by_slug] with the slug the save assigned, with no intervening
    writes, returns that same task. *)
Theorem get_by_slug_returns_saved_task
    {slugifier : Slugifier} (self saved : Task) (w w' : World) :
  pending w = [] ->
  Task.save self w = (Ok saved, w') ->
  exists s, slug saved = Some s /\ Task.get_by_slug s w' = Some saved.
Proof.
  intros P S.
  destruct (session_commit (first_attempt self w)) as [[objs|[v|exc]] w1] eqn:C.
  - rewrite (task_save_first_commit_ok self w w1 objs C) in S.
    injection S as <- <-.
    apply (get_by_slug_of_committed (first_attempt self w)); [|assumption].
    unfold first_attempt. simpl. now rewrite P.
  - rewrite (task_save_first_commit_violation self w w1 v C) in S.
    destruct (session_commit (second_attempt self w w1)) as [[objs|e] w2] eqn:C2;
      [|discriminate].
    injection S as <- <-.
    apply (get_by_slug_of_committed (second_attempt self w w1));
      [reflexivity|assumption].
  - rewrite (task_save_first_commit_other self w w1 exc C) in S. discriminate.
Qed.

Lemma get_by_slug_returns_saved_task_witness :
  exists s,
    slug (Ex.row 3 "Buy milk" "buy-milk-1" 0) = Some s
    /\ Task.get_by_slug s
         (snd (Task.save (slugifier := ascii_slugifier) Ex.milk Ex.raced))
       = Some (Ex.row 3 "Buy milk" "buy-milk-1" 0).
Proof.
  apply (get_by_slug_returns_saved_task (slugifier := ascii_slugifier)
           Ex.milk (Ex.row 3 "Buy milk" "buy-milk-1" 0) Ex.raced).
  - reflexivity.
  - reflexivity.
Defined.

(** ** Every stored slug is non-empty

    The listener runs at each insert, so a store that starts without empty
    slugs never acquires one, whoever commits. *)

Section SlugsNonempty.
Context {slugifier : Slugifier}.

Lemma listener_gives_slug (target : Task) :
  exists s, slug (task_before_insert target) = Some s /\ s <> "".
Proof.
  unfold task_before_insert, slug_missing.
  destruct (slug target) as [s|] eqn:S; simpl.
  - destruct (Py.truthy s) eqn:Tr; simpl.
    + exists s. split; [assumption|]. now apply truthy_iff.
    + eexists. split; [reflexivity|].
      unfold Py.or_. destruct (Py.truthy (slugify (title target))) eqn:Tr';
        [now apply truthy_iff|discriminate].
  - eexists. split; [reflexivity|].
    unfold Py.or_. destruct (Py.truthy (slugify (title target))) eqn:Tr';
      [now apply truthy_iff|discriminate].
Qed.

Lemma insert_task_keeps (stamp : nat) (t : Task) (db : DB) :
  slugs_nonempty db -> slugs_nonempty (snd (insert_task stamp t db)).
Proof.
  unfold insert_task, slugs_nonempty. intro I.
  destruct (draw _ _) as [new_id seq].
  destruct (listener_gives_slug t) as [s [S NE]]. rewrite S.
  repeat match goal with
         | |- context [if ?c then _ else _] => destruct c
         end; simpl; try assumption.
  apply Forall_app. split; [assumption|].
  constructor; [|constructor]. exists s. auto.
Qed.

Lemma insert_user_keeps (stamp : nat) (u : User) (db : DB) :
  slugs_nonempty db -> slugs_nonempty (snd (insert_user stamp u db)).
Proof.
  unfold insert_user, slugs_nonempty. intro I.
  destruct (draw _ _) as [new_id seq].
  destruct (password_hash u); [|assumption].
  repeat match goal with
         | |- context [if ?c then _ else _] => destruct c
         end; simpl; assumption.
Qed.

Lemma insert_keeps (stamp : nat) (e : entity) (db : DB) :
  slugs_nonempty db -> slugs_nonempty (snd (insert stamp e db)).
Proof.
  intro I. destruct e as [u|t]; simpl.
  - assert (K := insert_user_keeps stamp u db I).
    destruct (insert_user stamp u db) as [[v u'] db']. exact K.
  - assert (K := insert_task_keeps stamp t db I).
    destruct (insert_task stamp t db) as [[v t'] db']. exact K.
Qed.

Lemma flush_keeps (stamp : nat) (objs : list entity) :
  forall db, slugs_nonempty db -> slugs_nonempty (snd (flush stamp objs db)).
Proof.
  induction objs as [|o rest IH]; intros db I; simpl; [assumption|].
  assert (K := insert_keeps stamp o db I).
  destruct (insert stamp o db) as [[[v|] o'] db']; simpl in *; [assumption|].
  specialize (IH db' K).
  destruct (flush stamp rest db') as [[v rest'] db'']. exact IH.
Qed.

Lemma others_commit_keeps (i : Interference) (db : DB) :
  slugs_nonempty db -> slugs_nonempty (others_commit i db).
Proof.
  unfold others_commit. generalize (others i) as l. intro l. revert db.
  induction l as [|o l IH]; intros db I; simpl; [assumption|].
  apply IH, insert_keeps, I.
Qed.

Lemma session_commit_keeps (w : World) :
  slugs_nonempty (store w) ->
  slugs_nonempty (store (snd (session_commit w))).
Proof.
  intro I. unfold session_commit.
  assert (K := others_commit_keeps (hd quiet (env w)) (store w) I).
  destruct (fault (hd quiet (env w))); [exact K|].
  assert (F := flush_keeps (now (hd quiet (env w))) (pending w) _ K).
  destruct (flush _ _ _) as [[[v|] objs] db2]; simpl in *; assumption.
Qed.

Lemma slugs_nonempty_without_tasks (db : DB) :
  tasks db = [] -> slugs_nonempty db.
Proof. unfold slugs_nonempty. intros ->. constructor. Qed.

(** [Task.save] and [User.save] keep the store free of empty slugs. *)
Lemma task_save_keeps (self : Task) (w : World) :
  slugs_nonempty (store w) ->
  slugs_nonempty (store (snd (Task.save self w))).
Proof.
  intro I.
  assert (K1 : slugs_nonempty (store (snd (session_commit (first_attempt self w)))))
    by now apply session_commit_keeps.
  destruct (session_commit (first_attempt self w)) as [[objs|[v|exc]] w1] eqn:C.
  - now rewrite (task_save_first_commit_ok self w w1 objs C).
  - rewrite (task_save_first_commit_violation self w w1 v C).
    assert (K2 := session_commit_keeps (second_attempt self w w1) K1).
    destruct (session_commit (second_attempt self w w1)) as [[objs|e] w2];
      exact K2.
  - now rewrite (task_save_first_commit_other self w w1 exc C).
Qed.

Lemma user_save_keeps (self : User) (w : World) :
  slugs_nonempty (store w) ->
  slugs_nonempty (store (snd (User.save self w))).
Proof.
  intro I.
  assert (K := session_commit_keeps (user_attempt self w) I).
  destruct (session_commit (user_attempt self w)) as [[objs|e] w1] eqn:C.
  - now rewrite (user_save_commit_ok self w w1 objs C).
  - now rewrite (user_save_commit_error self w w1 e C).
Qed.

End SlugsNonempty.

(** ** The routes *)

Section RouteFacts.
Context {slugifier : Slugifier} {hasher : PasswordHasher}
        {email_validator : EmailValidator} {url_parser : UrlParser}.

Lemma not_authenticated (w : World) :
  current_user w = None -> is_authenticated w = false.
Proof. unfold is_authenticated. now intros ->. Qed.

(** The only way [signup] redirects a visitor who is not logged in is
    through a committed insert of the new account, which it then logs in;
    the account carries the normalised address and is the row a lookup of
    that address finds. *)
Lemma signup_stores_normalised_email
      (salt : string) (req : Request) (form : SignupForm) (w w' : World) :
  current_user w = None ->
  pending w = [] ->
  signup salt req form w = (Ok (Redirect index_url), w') ->
  exists u,
    current_user w' = Some u
    /\ email u = Py.lower (Py.strip (signup_email form))
    /\ password_hash u
       = Some (generate_password_hash salt (signup_password form))
    /\ User.get_by_email (Py.lower (Py.strip (signup_email form))) w'
       = Some u.
Proof.
  intros A P. unfold signup, bind, gets.
  rewrite (not_authenticated w A).
  destruct (validate_on_submit req (validate_signup form)); [|discriminate].
  destruct (User.get_by_email _ w) as [existing|]; [discriminate|].
  set (user := User.set_password salt (signup_password form) _).
  destruct (session_commit (user_attempt user w)) as [[objs|e] w1] eqn:C.
  - rewrite (user_save_commit_ok user w w1 objs C).
    unfold login_user, flash, ret. simpl.
    intro E. injection E as <-. simpl.
    assert (P1 : pending (user_attempt user w) = [EUser user])
      by (unfold user_attempt; simpl; now rewrite P).
    destruct (commit_one_user _ w1 user objs P1 C)
      as [row [-> [Em [Ph [U [T _]]]]]].
    exists row. unfold User.flushed, User.get_by_email. simpl.
    repeat split; try assumption.
    rewrite T. apply find_app_last; [exact U|].
    unfold has_email. rewrite Em. apply String.eqb_refl.
  - rewrite (user_save_commit_error user w w1 e C). discriminate.
Qed.

(** [login] changes who is logged in only by logging in the account found
    under the normalised address, and only when the password checks. *)
Lemma login_only_on_match (req : Request) (form : LoginForm) (w : World)
      (u : User) :
  current_user w = None ->
  current_user (snd (login req form w)) = Some u ->
  validate_on_submit req (validate_login form) = true
  /\ User.get_by_email (Py.lower (Py.strip (login_email form))) w = Some u
  /\ User.check_password u (login_password form) = Ok true.
Proof.
  intros A. unfold login, bind, gets.
  rewrite (not_authenticated w A).
  destruct (validate_on_submit req (validate_login form));
    [|simpl; congruence].
  destruct (User.get_by_email _ w) as [found|];
    [|simpl; congruence].
  unfold lift_result.
  destruct (User.check_password found (login_password form))
    as [[|]|e] eqn:Ck; simpl; try congruence.
  intro E. injection E as ->. auto.
Qed.

Lemma login_on_match (req : Request) (form : LoginForm) (w : World)
      (u : User) :
  current_user w = None ->
  validate_on_submit req (validate_login form) = true ->
  User.get_by_email (Py.lower (Py.strip (login_email form))) w = Some u ->
  User.check_password u (login_password form) = Ok true ->
  fst (login req form w) = Ok (after_login req)
  /\ current_user (snd (login req form w)) = Some u.
Proof.
  intros A V G Ck. unfold login, bind, gets.
  rewrite (not_authenticated w A), V, G. unfold lift_result. rewrite Ck.
  split; reflexivity.
Qed.

Lemma login_rejects (req : Request) (form : LoginForm) (w : World) :
  current_user w = None ->
  validate_on_submit req (validate_login form) = true ->
  User.get_by_email (Py.lower (Py.strip (login_email form))) w = None
  \/ (exists u,
        User.get_by_email (Py.lower (Py.strip (login_email form))) w = Some u
        /\ User.check_password u (login_password form) = Ok false) ->
  login req form w
  = (Ok (RenderTemplate "login_form.html"),
     mkWorld (store w) (pending w) (env w) (trace w) None
             (flashes w ++ [("Invalid credentials", "error")])).
Proof.
  intros A V [G|[u [G Ck]]]; unfold login, bind, gets;
    rewrite (not_authenticated w A), V, G.
  - unfold invalid_credentials, bind, flash, ret. now rewrite A.
  - unfold lift_result. rewrite Ck.
    unfold invalid_credentials, bind, flash, ret. now rewrite A.
Qed.

End RouteFacts.

(** C7. After signing up a user with email ["A@B.com"] through the signup
    path, [User.get_by_email "a@b.com"] returns that user, because the
    signup path stores the email trimmed and lowercased. *)
Theorem signup_then_get_by_lowercase_email
    {slugifier : Slugifier} {hasher : PasswordHasher}
    {email_validator : EmailValidator}
    (salt : string) (req : Request) (form : SignupForm) (w w' : World) :
  signup_email form = "A@B.com" ->
  current_user w = None ->
  pending w = [] ->
  signup salt req form w = (Ok (Redirect index_url), w') ->
  exists u,
    current_user w' = Some u
    /\ email u = "a@b.com"
    /\ User.get_by_email "a@b.com" w' = Some u.
Proof.
  intros E A P S.
  destruct (signup_stores_normalised_email salt req form w w' A P S)
    as [u [L [Em [_ G]]]].
  rewrite E in Em, G.
  exists u. repeat split; assumption.
Qed.

Lemma signup_then_get_by_lowercase_email_witness :
  exists u,
    current_user Ex.signed_up = Some u
    /\ email u = "a@b.com"
    /\ User.get_by_email "a@b.com" Ex.signed_up = Some u.
Proof.
  apply (signup_then_get_by_lowercase_email
           (slugifier := ascii_slugifier) (hasher := plain_hasher)
           (email_validator := at_validator)
           "salt" Ex.post Ex.bea_signup (Ex.world [] []));
    reflexivity.
Defined.

Lemma plain_hasher_verifies_own_password : verifies_own_password plain_hasher.
Proof. intros salt password attempt. reflexivity. Qed.

(** C5. Credential verification round-trip: for a user whose password was
    most recently set to [pw] via [set_password], [check_password pw]
    returns true, and [check_password q] returns false for every [q]
    different from [pw], including the empty string and strings differing
    from [pw] by one character; the login path returns the user only on such
    a match and rejects when the email is absent.  The hasher is taken to
    verify exactly the password a hash was generated from. *)
Theorem credentials_round_trip
    {hasher : PasswordHasher} {url_parser : UrlParser} :
  verifies_own_password hasher ->
  (forall (u : User) (salt pw : string),
      User.check_password (User.set_password salt pw u) pw = Ok true)
  /\ (forall (u : User) (salt pw q : string),
        q <> pw ->
        User.check_password (User.set_password salt pw u) q = Ok false)
  /\ (forall (req : Request) (form : LoginForm) (w : World) (u : User),
        current_user w = None ->
        current_user (snd (login req form w)) = Some u ->
        User.get_by_email (Py.lower (Py.strip (login_email form))) w = Some u
        /\ User.check_password u (login_password form) = Ok true)
  /\ (forall (req : Request) (form : LoginForm) (w : World)
             (u : User) (salt pw : string),
        current_user w = None ->
        validate_on_submit req (validate_login form) = true ->
        User.get_by_email (Py.lower (Py.strip (login_email form))) w = Some u ->
        password_hash u = Some (generate_password_hash salt pw) ->
        (current_user (snd (login req form w)) = Some u
         <-> login_password form = pw))
  /\ (forall (req : Request) (form : LoginForm) (w : World),
        current_user w = None ->
        validate_on_submit req (validate_login form) = true ->
        User.get_by_email (Py.lower (Py.strip (login_email form))) w = None ->
        fst (login req form w) = Ok (RenderTemplate "login_form.html")
        /\ current_user (snd (login req form w)) = None).
Proof.
  intro V. split; [|split; [|split; [|split]]].
  - intros u salt pw. unfold User.check_password, User.set_password. simpl.
    rewrite V. now rewrite String.eqb_refl.
  - intros u salt pw q N. unfold User.check_password, User.set_password. simpl.
    rewrite V. apply not_eq_sym, String.eqb_neq in N. now rewrite N.
  - intros req form w u A L.
    now destruct (login_only_on_match req form w u A L) as [_ [G Ck]].
  - intros req form w u salt pw A Va G Ph.
    assert (Ck : User.check_password u (login_password form)
                 = Ok (String.eqb pw (login_password form))).
    { unfold User.check_password. rewrite Ph. apply V. }
    split.
    + intro L.
      destruct (login_only_on_match req form w u A L) as [_ [_ Ck']].
      rewrite Ck in Ck'. injection Ck' as Ck'.
      apply String.eqb_eq in Ck'. now symmetry.
    + intros <-. rewrite String.eqb_refl in Ck.
      now destruct (login_on_match req form w u A Va G Ck).
  - intros req form w A Va G.
    rewrite (login_rejects req form w A Va (or_introl G)). split; reflexivity.
Qed.

Lemma credentials_round_trip_witness :
  User.check_password (hasher := plain_hasher)
    (User.set_password (hasher := plain_hasher) "salt" "secret" Ex.ann) ""
  = Ok false
  /\ User.check_password (hasher := plain_hasher)
       (User.set_password (hasher := plain_hasher) "salt" "secret" Ex.ann)
       "secreT"
     = Ok false
  /\ (current_user
        (snd (login (hasher := plain_hasher) (url_parser := relative_parser)
                Ex.post (Ex.ann_login "secret") (Ex.world [] [])))
      = Some Ex.ann
      <-> login_password (Ex.ann_login "secret") = "secret").
Proof.
  destruct (credentials_round_trip (hasher := plain_hasher)
              (url_parser := relative_parser)
              plain_hasher_verifies_own_password) as [_ [F [_ [L _]]]].
  split; [|split].
  - apply F. discriminate.
  - apply F. discriminate.
  - apply (L Ex.post (Ex.ann_login "secret") (Ex.world [] []) Ex.ann
             "pepper" "secret"); reflexivity.
Defined.

(** ** [Task.get_all] *)

Section GetAll.

Lemma not_older_total (a b : Task) :
  Task.not_older a b = false -> Task.not_older b a = true.
Proof.
  unfold Task.not_older.
  destruct (created_at a), (created_at b); try easy.
  intro L. apply Nat.leb_gt in L. apply Nat.leb_le. lia.
Qed.

Lemma not_older_trans (a b c : Task) :
  Task.not_older a b = true -> Task.not_older b c = true ->
  Task.not_older a c = true.
Proof.
  unfold Task.not_older.
  destruct (created_at a), (created_at b), (created_at c); try easy.
  intros L1 L2. apply Nat.leb_le in L1, L2. apply Nat.leb_le. lia.
Qed.

Lemma not_older_antisym (a b : Task) :
  Task.not_older a b = true -> Task.not_older b a = true ->
  created_at a = created_at b.
Proof.
  unfold Task.not_older.
  destruct (created_at a), (created_at b); try easy.
  intros L1 L2. apply Nat.leb_le in L1, L2. f_equal. lia.
Qed.

Lemma place_Permutation (t : Task) (l : list Task) :
  Permutation (Task.place t l) (t :: l).
Proof.
  induction l as [|x l IH]; simpl; [reflexivity|].
  destruct (Task.not_older t x); [reflexivity|].
  rewrite IH. apply perm_swap.
Qed.

Lemma place_sorted (t : Task) (l : list Task) :
  StronglySorted (fun a b => Task.not_older a b = true) l ->
  StronglySorted (fun a b => Task.not_older a b = true) (Task.place t l).
Proof.
  induction l as [|x l IH]; simpl; intro S.
  - repeat constructor.
  - inversion S as [|? ? Sl Fx]; subst.
    destruct (Task.not_older t x) eqn:O.
    + constructor; [assumption|]. constructor; [assumption|].
      eapply Forall_impl; [|exact Fx].
      intros y Hy. now apply (not_older_trans t x y).
    + constructor; [now apply IH|].
      apply (Permutation_Forall (Permutation_sym (place_Permutation t l))).
      constructor; [now apply not_older_total|assumption].
Qed.

(** [get_all] always has an answer. *)
Lemma get_all_by_insertion_admitted (w : World) :
  Task.get_all w (Task.get_all_by_insertion w).
Proof.
  unfold Task.get_all, Task.get_all_by_insertion.
  induction (tasks (store w)) as [|t l [P S]]; simpl.
  - split; [reflexivity|constructor].
  - split; [|now apply place_sorted].
    rewrite place_Permutation. now constructor.
Qed.

(** Two descending arrangements of the same rows agree as soon as no two
    distinct rows share a timestamp. *)
Lemma descending_arrangement_unique (l1 : list Task) :
  forall l2,
    Permutation l1 l2 ->
    StronglySorted (fun a b => Task.not_older a b = true) l1 ->
    StronglySorted (fun a b => Task.not_older a b = true) l2 ->
    (forall a b, In a l1 -> In b l1 -> created_at a = created_at b -> a = b) ->
    l1 = l2.
Proof.
  induction l1 as [|a l1 IH]; intros l2 P S1 S2 D.
  - apply Permutation_nil in P. now subst.
  - destruct l2 as [|b l2];
      [apply Permutation_sym, Permutation_nil in P; discriminate|].
    inversion S1 as [|? ? S1' F1]; inversion S2 as [|? ? S2' F2]; subst.
    assert (E : a = b).
    { assert (Ia : In a (b :: l2))
        by (apply (Permutation_in _ P); now left).
      assert (Ib : In b (a :: l1))
        by (apply (Permutation_in _ (Permutation_sym P)); now left).
      destruct Ia as [Ia|Ia]; [now symmetry|].
      destruct Ib as [Ib|Ib]; [assumption|].
      rewrite Forall_forall in F1, F2.
      apply D; [now left|now right|].
      apply not_older_antisym; [now apply F1|now apply F2]. }
    subst b. f_equal.
    apply IH; try assumption.
    + now apply Permutation_cons_inv in P.
    + intros x y Ix Iy. apply D; now right.
Qed.

Lemma get_all_determined (w : World) (answer : list Task) :
  (forall a b, In a (tasks (store w)) -> In b (tasks (store w)) ->
               created_at a = created_at b -> a = b) ->
  Task.get_all w answer ->
  answer = Task.get_all_by_insertion w.
Proof.
  intros D [P S].
  destruct (get_all_by_insertion_admitted w) as [P' S'].
  apply descending_arrangement_unique; try assumption.
  - now rewrite P, P'.
  - intros a b Ia Ib. apply D; now apply (Permutation_in _ P).
Qed.

End GetAll.

(** C8, as stated, fails on its last clause: with two tasks of equal
    timestamp the query admits both arrangements, so nothing makes the
    answer follow insertion order. *)
Lemma get_all_leaves_ties_open :
  Task.get_all Ex.tied
    [Ex.row 1 "Buy milk" "buy-milk" 11; Ex.row 2 "Walk dog" "walk-dog" 11]
  /\ Task.get_all Ex.tied
       [Ex.row 2 "Walk dog" "walk-dog" 11; Ex.row 1 "Buy milk" "buy-milk" 11]
  /\ ~ (forall answer,
          Task.get_all Ex.tied answer ->
          answer = tasks (store Ex.tied)).
Proof.
  assert (A : Task.get_all Ex.tied
                [Ex.row 1 "Buy milk" "buy-milk" 11;
                 Ex.row 2 "Walk dog" "walk-dog" 11]).
  { split; [reflexivity|]. repeat constructor. }
  assert (B : Task.get_all Ex.tied
                [Ex.row 2 "Walk dog" "walk-dog" 11;
                 Ex.row 1 "Buy milk" "buy-milk" 11]).
  { split; [apply perm_swap|]. repeat constructor. }
  split; [exact A|split; [exact B|]].
  intro H. specialize (H _ B). discriminate H.
Qed.

(** C8, amended. [Task.get_all] returns all tasks ordered by creation
    timestamp descending (newest first): every answer is an arrangement of
    all the rows in which no task comes before a newer one, and for three
    tasks created in order T1, T2, T3 with strictly increasing timestamps
    the answer is [[T3; T2; T1]].  More generally the answer is determined
    whenever no two tasks share a timestamp. *)
Theorem get_all_newest_first :
  (forall (w : World) (answer : list Task),
      Task.get_all w answer ->
      Permutation answer (tasks (store w))
      /\ forall i j d,
          i < j < length answer ->
          Task.not_older (nth i answer d) (nth j answer d) = true)
  /\ (forall (w : World) (answer : list Task) (T1 T2 T3 : Task)
             (c1 c2 c3 : nat),
        tasks (store w) = [T1; T2; T3] ->
        created_at T1 = Some c1 ->
        created_at T2 = Some c2 ->
        created_at T3 = Some c3 ->
        c1 < c2 < c3 ->
        Task.get_all w answer ->
        answer = [T3; T2; T1])
  /\ (forall (w : World) (answer : list Task),
        (forall a b, In a (tasks (store w)) -> In b (tasks (store w)) ->
                     created_at a = created_at b -> a = b) ->
        Task.get_all w answer ->
        answer = Task.get_all_by_insertion w)
  /\ (forall w : World, Task.get_all w (Task.get_all_by_insertion w)).
Proof.
  split; [|split; [|split]].
  - intros w answer [P S]. split; [assumption|].
    intros i j d [Hij Hj].
    clear P. revert i j Hij Hj.
    induction S as [|a l S IH F]; intros i j Hij Hj; simpl in Hj; [lia|].
    destruct j as [|j]; [lia|]. destruct i as [|i]; simpl.
    + rewrite Forall_forall in F. apply F, nth_In. lia.
    + apply IH; lia.
  - intros w answer T1 T2 T3 c1 c2 c3 R E1 E2 E3 [L12 L23] G.
    rewrite (get_all_determined w answer); [|  |assumption].
    + assert (O23 : Task.not_older T2 T3 = false)
        by (unfold Task.not_older; rewrite E2, E3; apply Nat.leb_gt; lia).
      assert (O13 : Task.not_older T1 T3 = false)
        by (unfold Task.not_older; rewrite E1, E3; apply Nat.leb_gt; lia).
      assert (O12 : Task.not_older T1 T2 = false)
        by (unfold Task.not_older; rewrite E1, E2; apply Nat.leb_gt; lia).
      unfold Task.get_all_by_insertion. rewrite R.
      cbn [fold_right Task.place]. rewrite O23.
      cbn [Task.place]. now rewrite O13, O12.
    + rewrite R. simpl.
      intros a b [<-|[<-|[<-|[]]]] [<-|[<-|[<-|[]]]] E;
        trivial; rewrite ?E1, ?E2, ?E3 in E; injection E as E; lia.
  - intros w answer D G. now apply get_all_determined.
  - exact get_all_by_insertion_admitted.
Qed.

Lemma get_all_newest_first_witness :
  Task.get_all_by_insertion (Ex.world Ex.milk_rows [])
  = [Ex.row 3 "Buy milk" "buy-milk-2" 13;
     Ex.row 2 "Buy milk" "buy-milk-1" 12;
     Ex.row 1 "Buy milk" "buy-milk" 11].
Proof.
  destruct get_all_newest_first as [_ [T [_ A]]].
  apply (T (Ex.world Ex.milk_rows []) _ _ _ _ 11 12 13);
    try reflexivity; [lia|apply A].
Defined.

(** ** The [before_insert] listener *)

Section Listener.
Context {slugifier : Slugifier}.

Lemma listener_fills (target : Task) :
  slug_missing target = true ->
  task_before_insert target
  = set_slug target (Some (Py.or_ (slugify (title target)) "task")).
Proof. unfold task_before_insert. now intros ->. Qed.

Lemma listener_keeps (target : Task) :
  slug_missing target = false -> task_before_insert target = target.
Proof. unfold task_before_insert. now intros ->. Qed.

Lemma insert_task_stores_listener_slug (stamp : nat) (t row : Task)
      (db db' : DB) :
  insert_task stamp t db = (None, row, db') ->
  slug row = slug (task_before_insert t).
Proof.
  unfold insert_task.
  destruct (draw _ _) as [new_id seq].
  destruct (slug (task_before_insert t)) as [s|]; [|discriminate].
  repeat match goal with
         | |- context [if ?c then _ else _] => destruct c
         end; try discriminate.
  intro E. now injection E as <- _.
Qed.

Lemma insert_task_rejects_taken_slug (stamp : nat) (t : Task) (db : DB)
      (s : string) :
  slug (task_before_insert t) = Some s ->
  existsb (has_slug s) (tasks db) = true ->
  exists column,
    fst (fst (insert_task stamp t db))
    = Some (UniqueViolation "tasks" column)
    /\ tasks (snd (insert_task stamp t db)) = tasks db.
Proof.
  intros S U. unfold insert_task.
  destruct (draw _ _) as [new_id seq]. rewrite S.
  destruct (existsb (fun r => opt_nat_eqb (id r) (Some new_id)) (tasks db)).
  - eexists. split; reflexivity.
  - rewrite U. eexists. split; reflexivity.
Qed.

End Listener.

(** C10, as stated, fails: a task inserted directly with a slug of its own
    keeps that slug; the listener assigns nothing, and the row is stored
    under a slug that is not [slugify(title)]. *)
Lemma listener_leaves_preset_slug :
  slug (task_before_insert (slugifier := ascii_slugifier) Ex.filed)
  = Some "errands"
  /\ slugify (Slugifier := ascii_slugifier) (title Ex.filed) = "buy-milk"
  /\ map slug (tasks (store (snd (direct_insert (slugifier := ascii_slugifier)
                                    Ex.filed (Ex.world [] [])))))
     = [Some "errands"].
Proof. repeat split; reflexivity. Qed.

(** C10, amended. For every task inserted directly through the session
    whose slug is missing ([None] or empty) when it is flushed, the
    [before_insert] listener assigns [slug = slugify(title)], or the literal
    token ["task"] when [slugify(title)] is empty, with no numeric suffix
    and without looking at existing slugs; a task that already carries a
    slug keeps it.  So every inserted task has a non-empty slug, and the row
    is stored under the listener's slug; the listener does not make that
    slug unused: when it is taken the store's constraint rejects the insert
    and no row is added. *)
Theorem listener_fills_missing_slug_only {slugifier : Slugifier} :
  (forall target : Task,
      slug_missing target = true ->
      task_before_insert target
      = set_slug target (Some (Py.or_ (slugify (title target)) "task")))
  /\ (forall target : Task,
        slug_missing target = false -> task_before_insert target = target)
  /\ (forall target : Task,
        exists s, slug (task_before_insert target) = Some s /\ s <> "")
  /\ (forall (stamp : nat) (t row : Task) (db db' : DB),
        insert_task stamp t db = (None, row, db') ->
        slug row = slug (task_before_insert t)
        /\ tasks db' = tasks db ++ [row])
  /\ (forall (stamp : nat) (t : Task) (db : DB) (s : string),
        slug (task_before_insert t) = Some s ->
        existsb (has_slug s) (tasks db) = true ->
        exists column,
          fst (fst (insert_task stamp t db))
          = Some (UniqueViolation "tasks" column)
          /\ tasks (snd (insert_task stamp t db)) = tasks db).
Proof.
  split; [|split; [|split; [|split]]].
  - exact listener_fills.
  - exact listener_keeps.
  - exact listener_gives_slug.
  - intros stamp t row db db' I. split.
    + exact (insert_task_stores_listener_slug stamp t row db db' I).
    + now destruct (insert_task_ok stamp t row db db' I) as [s [_ [_ [T _]]]].
  - exact insert_task_rejects_taken_slug.
Qed.

Lemma listener_fills_missing_slug_only_witness :
  task_before_insert (slugifier := ascii_slugifier) (Ex.new_task 1 "?!")
  = set_slug (Ex.new_task 1 "?!") (Some "task")
  /\ task_before_insert (slugifier := ascii_slugifier) Ex.filed = Ex.filed
  /\ exists column,
      fst (fst (insert_task (slugifier := ascii_slugifier) 30 Ex.milk
                  (store (Ex.world Ex.milk_rows []))))
      = Some (UniqueViolation "tasks" column)
      /\ tasks (snd (insert_task (slugifier := ascii_slugifier) 30 Ex.milk
                       (store (Ex.world Ex.milk_rows []))))
         = Ex.milk_rows.
Proof.
  destruct (listener_fills_missing_slug_only (slugifier := ascii_slugifier))
    as [F [K [_ [_ R]]]].
  split; [|split].
  - apply (F (Ex.new_task 1 "?!")). reflexivity.
  - apply (K Ex.filed). reflexivity.
  - apply (R 30 Ex.milk (store (Ex.world Ex.milk_rows [])) "buy-milk");
      reflexivity.
Defined.

(** ** [check_password] and the hasher *)

(** C9, as stated, fails: handed a stored hash in a foreign format, the
    hasher raises, and [check_password], which calls it unguarded, raises
    with it. *)
Lemma check_password_raises_on_foreign_hash :
  User.check_password (hasher := plain_hasher)
    (mkUser (Some 2) "Bob" "bob@example.org"
            (Some "bcrypt$c2FsdA$ZGlnZXN0") (Some 15))
    "secret"
  = Raise (OtherError "ValueError").
Proof. reflexivity. Qed.

(** C9, amended. [User.check_password] answers exactly what the hasher's
    [check_password_hash] answers for the stored hash and the password, and
    raises exactly what it raises; it handles no exception itself.  So for a
    stored hash string, malformed and foreign ones included, it returns
    false rather than raising precisely where the hasher does. *)
Theorem check_password_is_the_hashers_answer
    {hasher : PasswordHasher} (u : User) (h password : string) :
  password_hash u = Some h ->
  User.check_password u password = check_password_hash (Some h) password
  /\ (forall b,
        check_password_hash (Some h) password = Ok b ->
        User.check_password u password = Ok b)
  /\ (forall e,
        check_password_hash (Some h) password = Raise e ->
        User.check_password u password = Raise e).
Proof.
  intro Ph. unfold User.check_password. rewrite Ph.
  repeat split; trivial.
Qed.

Lemma check_password_is_the_hashers_answer_witness :
  User.check_password (hasher := plain_hasher)
    (mkUser (Some 2) "Bob" "bob@example.org" (Some "not a hash") (Some 15))
    "secret"
  = Ok false.
Proof.
  destruct (check_password_is_the_hashers_answer (hasher := plain_hasher)
              (mkUser (Some 2) "Bob" "bob@example.org" (Some "not a hash")
                      (Some 15))
              "not a hash" "secret" eq_refl) as [_ [F _]].
  apply F. reflexivity.
Defined.

(** ** Scenarios *)

(** Two tasks titled "Buy milk", saved one after the other, get the slugs
    [buy-milk] and [buy-milk-1]. *)
Example buy_milk_twice :
  let w1 := snd (Task.save (slugifier := ascii_slugifier) Ex.milk
                   (Ex.world [] [])) in
  let w2 := snd (Task.save (slugifier := ascii_slugifier) Ex.milk w1) in
  map slug (tasks (store w2)) = [Some "buy-milk"; Some "buy-milk-1"].
Proof. reflexivity. Qed.

(** Two sessions save a task of the same title at once: the one that
    commits second loses the race for the slug, retries, and both tasks are
    stored under distinct slugs. *)
Example two_writers_same_title :
  map slug (tasks (store (snd (Task.save (slugifier := ascii_slugifier)
                                 Ex.milk Ex.raced))))
  = [Some "buy-milk"; Some "buy-milk-1"].
Proof. reflexivity. Qed.

(** A title with nothing to slugify falls back on the token of ["task-"]
    followed by the id, which a new task does not have yet. *)
Example unsluggable_title :
  Task._generate_unique_slug (slugifier := ascii_slugifier)
    (Ex.new_task 1 "?!") (Ex.world [] []) = "task".
Proof. reflexivity. Qed.

(** * Further properties of the code *)

(** ** Python strings *)

Lemma isspace_lower_char (c : ascii) :
  Py.isspace (Py.lower_char c) = Py.isspace c.
Proof.
  destruct c as [[] [] [] [] [] [] [] []]; vm_compute; reflexivity.
Qed.

Lemma lower_char_idempotent (c : ascii) :
  Py.lower_char (Py.lower_char c) = Py.lower_char c.
Proof.
  destruct c as [[] [] [] [] [] [] [] []]; vm_compute; reflexivity.
Qed.

Lemma lower_idempotent (s : string) : Py.lower (Py.lower s) = Py.lower s.
Proof.
  induction s as [|c s IH]; simpl; [reflexivity|].
  now rewrite lower_char_idempotent, IH.
Qed.

Lemma truthy_lower (s : string) : Py.truthy (Py.lower s) = Py.truthy s.
Proof. now destruct s. Qed.

Lemma lstrip_lower (s : string) : Py.lstrip (Py.lower s) = Py.lower (Py.lstrip s).
Proof.
  induction s as [|c s IH]; simpl; [reflexivity|].
  rewrite isspace_lower_char. destruct (Py.isspace c); [exact IH|reflexivity].
Qed.

Lemma rstrip_lower (s : string) : Py.rstrip (Py.lower s) = Py.lower (Py.rstrip s).
Proof.
  induction s as [|c s IH]; simpl; [reflexivity|].
  rewrite isspace_lower_char, IH, truthy_lower.
  now destruct (Py.isspace c && negb (Py.truthy (Py.rstrip s))).
Qed.

Lemma strip_lower (s : string) : Py.strip (Py.lower s) = Py.lower (Py.strip s).
Proof. unfold Py.strip. now rewrite lstrip_lower, rstrip_lower. Qed.

(** [lstrip] produces strings that start clean and leaves them alone. *)
Lemma lstrip_starts_clean (s : string) : starts_clean (Py.lstrip s).
Proof.
  induction s as [|c s IH]; simpl; [exact I|].
  destruct (Py.isspace c) eqn:E; [exact IH|exact E].
Qed.

Lemma lstrip_of_clean (s : string) : starts_clean s -> Py.lstrip s = s.
Proof. destruct s as [|c s]; simpl; [reflexivity|]. now intros ->. Qed.

Lemma rstrip_starts_clean (s : string) :
  starts_clean s -> starts_clean (Py.rstrip s).
Proof.
  destruct s as [|c s]; simpl; [trivial|]. intro H. rewrite H. exact H.
Qed.

Lemma rstrip_idempotent (s : string) : Py.rstrip (Py.rstrip s) = Py.rstrip s.
Proof.
  induction s as [|c s IH]; simpl; [reflexivity|].
  destruct (Py.isspace c && negb (Py.truthy (Py.rstrip s))) eqn:E;
    [reflexivity|].
  simpl. rewrite IH, E. reflexivity.
Qed.

Lemma strip_idempotent (s : string) : Py.strip (Py.strip s) = Py.strip s.
Proof.
  unfold Py.strip.
  rewrite (lstrip_of_clean (Py.rstrip (Py.lstrip s))).
  - apply rstrip_idempotent.
  - apply rstrip_starts_clean, lstrip_starts_clean.
Qed.

Lemma lstrip_length (s : string) :
  String.length (Py.lstrip s) <= String.length s.
Proof.
  induction s as [|c s IH]; simpl; [lia|].
  destruct (Py.isspace c); simpl; lia.
Qed.

Lemma rstrip_length (s : string) :
  String.length (Py.rstrip s) <= String.length s.
Proof.
  induction s as [|c s IH]; simpl; [lia|].
  destruct (Py.isspace c && negb (Py.truthy (Py.rstrip s))); simpl; lia.
Qed.

Lemma strip_length (s : string) :
  String.length (Py.strip s) <= String.length s.
Proof.
  unfold Py.strip.
  etransitivity; [apply rstrip_length|apply lstrip_length].
Qed.

(** The normal form of an address, [e.strip().lower()], is its own normal
    form. *)
Lemma normalised_email_is_normal (e : string) :
  Py.lower (Py.strip (Py.lower (Py.strip e))) = Py.lower (Py.strip e).
Proof. now rewrite strip_lower, strip_idempotent, lower_idempotent. Qed.

(** ** [int] reads back what [str] prints *)

Section IntOfStr.

Lemma digits_of_numeral (d : uint) :
  forall after_digit,
    d <> Nil \/ after_digit = true ->
    PyInt.digits after_digit (NilEmpty.string_of_uint d)
    = Some (NilEmpty.string_of_uint d).
Proof.
  induction d as [|d IH|d IH|d IH|d IH|d IH|d IH|d IH|d IH|d IH|d IH];
    intros b H; simpl;
    try (rewrite (IH true); [reflexivity|now right]).
  destruct H as [H| ->]; [now contradiction H|reflexivity].
Qed.

Lemma rstrip_numeral (d : uint) :
  Py.rstrip (NilEmpty.string_of_uint d) = NilEmpty.string_of_uint d.
Proof.
  induction d as [|d IH|d IH|d IH|d IH|d IH|d IH|d IH|d IH|d IH|d IH];
    simpl; try reflexivity; now rewrite IH.
Qed.

Lemma strip_numeral (d : uint) :
  Py.strip (NilEmpty.string_of_uint d) = NilEmpty.string_of_uint d.
Proof.
  unfold Py.strip. rewrite lstrip_of_clean; [apply rstrip_numeral|].
  now destruct d.
Qed.

Lemma of_string_numeral (d : uint) :
  d <> Nil ->
  PyInt.of_string (NilEmpty.string_of_uint d)
  = Some (Z.of_nat (Nat.of_uint d)).
Proof.
  intro N. unfold PyInt.of_string. rewrite strip_numeral.
  assert (D := digits_of_numeral d false (or_introl N)).
  assert (U := NilEmpty.usu d).
  destruct d; try (now contradiction N);
    cbn [NilEmpty.string_of_uint] in *; rewrite D, U; reflexivity.
Qed.

Lemma to_uint_not_Nil (n : nat) : Nat.to_uint n <> Nil.
Proof.
  rewrite <- (Unsigned.of_to n) at 1. rewrite Unsigned.to_of.
  apply DecimalFacts.unorm_nonnil.
Qed.

Lemma int_of_str (n : nat) : PyInt.of_string (Py.str n) = Some (Z.of_nat n).
Proof.
  unfold Py.str. rewrite of_string_numeral by apply to_uint_not_Nil.
  now rewrite Unsigned.of_to.
Qed.

End IntOfStr.

(** ** What an insert does to the rows *)

Section InsertFacts.
Context {slugifier : Slugifier}.

Lemma existsb_has_slug_In (s : string) (ts : list Task) :
  existsb (has_slug s) ts = false -> ~ In (Some s) (map slug ts).
Proof.
  intros E I. apply in_map_iff in I as [r [S R]].
  assert (T : existsb (has_slug s) ts = true).
  { apply existsb_exists. exists r. split; [assumption|].
    unfold has_slug. rewrite S. apply String.eqb_refl. }
  congruence.
Qed.

Lemma existsb_has_email_In (e : string) (us : list User) :
  existsb (has_email e) us = false -> ~ In e (map email us).
Proof.
  intros E I. apply in_map_iff in I as [r [S R]].
  assert (T : existsb (has_email e) us = true).
  { apply existsb_exists. exists r. split; [assumption|].
    unfold has_email. rewrite S. apply String.eqb_refl. }
  congruence.
Qed.

(** A rejected insert leaves the rows as they are. *)
Lemma insert_task_rejected (stamp : nat) (t t' : Task) (db db' : DB) v :
  insert_task stamp t db = (Some v, t', db') ->
  users db' = users db /\ tasks db' = tasks db.
Proof.
  unfold insert_task.
  destruct (draw _ _) as [new_id seq].
  destruct (slug (task_before_insert t)) as [s|];
    repeat match goal with
           | |- context [if ?c then _ else _] => destruct c
           end;
    intro E; inversion E; subst; simpl; auto.
Qed.

Lemma insert_user_rejected (stamp : nat) (u u' : User) (db db' : DB) v :
  insert_user stamp u db = (Some v, u', db') ->
  users db' = users db /\ tasks db' = tasks db.
Proof.
  unfold insert_user.
  destruct (draw _ _) as [new_id seq].
  destruct (password_hash u);
    repeat match goal with
           | |- context [if ?c then _ else _] => destruct c
           end;
    intro E; inversion E; subst; simpl; auto.
Qed.

(** An accepted insert of a task appends one row: the task as the listener
    left it, with its id and the column defaults filled in.  The row's slug
    was free, its id was free, and its owner is stored. *)
Lemma insert_task_accepted (stamp : nat) (t row : Task) (db db' : DB) :
  insert_task stamp t db = (None, row, db') ->
  users db' = users db
  /\ tasks db' = tasks db ++ [row]
  /\ (exists s, slug row = Some s /\ s <> ""
                /\ slug (task_before_insert t) = Some s
                /\ existsb (has_slug s) (tasks db) = false)
  /\ (exists n, id row = Some n
                /\ existsb (fun r => opt_nat_eqb (id r) (Some n)) (tasks db)
                   = false
                /\ (id t = None -> n = next_task_id db))
  /\ existsb (has_id (user_id row)) (users db) = true
  /\ user_id row = user_id t
  /\ title row = title t
  /\ description row = description t
  /\ due_date row = due_date t
  /\ priority row = default 3 (priority t)
  /\ completed row = default false (completed t)
  /\ created_at row = default stamp (created_at t).
Proof.
  unfold insert_task.
  assert (F : forall x, id (task_before_insert x) = id x
                        /\ user_id (task_before_insert x) = user_id x
                        /\ title (task_before_insert x) = title x
                        /\ description (task_before_insert x) = description x
                        /\ due_date (task_before_insert x) = due_date x
                        /\ priority (task_before_insert x) = priority x
                        /\ completed (task_before_insert x) = completed x
                        /\ created_at (task_before_insert x) = created_at x).
  { intro x. unfold task_before_insert. destruct (slug_missing x);
      simpl; auto 10. }
  destruct (F t) as [Fi [Fu [Ft [Fd [Fdd [Fp [Fc Fcr]]]]]]].
  destruct (listener_gives_slug t) as [s [S NE]]. rewrite S.
  destruct (draw (id (task_before_insert t)) (next_task_id db))
    as [new_id seq] eqn:D.
  destruct (existsb (fun r => opt_nat_eqb (id r) (Some new_id)) (tasks db))
    eqn:Ei; [discriminate|].
  destruct (existsb (has_slug s) (tasks db)) eqn:Es; [discriminate|].
  destruct (existsb _ (users db)) eqn:Eu; [|discriminate].
  simpl. intro E. injection E as <- <-. simpl.
  repeat split; try congruence.
  - exists s. auto.
  - exists new_id. repeat split; try assumption.
    intro N. rewrite Fi, N in D. simpl in D. congruence.
  - rewrite <- Eu. reflexivity.
Qed.

Lemma insert_user_accepted (stamp : nat) (u row : User) (db db' : DB) :
  insert_user stamp u db = (None, row, db') ->
  users db' = users db ++ [row]
  /\ tasks db' = tasks db
  /\ existsb (has_email (email u)) (users db) = false
  /\ (exists n, users_id row = Some n
                /\ existsb (has_id n) (users db) = false
                /\ (users_id u = None -> n = next_user_id db))
  /\ name row = name u
  /\ email row = email u
  /\ password_hash row = password_hash u
  /\ (exists h, password_hash u = Some h)
  /\ users_created_at row = default stamp (users_created_at u).
Proof.
  unfold insert_user.
  destruct (draw (users_id u) (next_user_id db)) as [new_id seq] eqn:D.
  destruct (password_hash u) as [h|] eqn:P; [|discriminate].
  destruct (existsb (fun r => opt_nat_eqb (users_id r) (Some new_id)) (users db))
    eqn:Ei; [discriminate|].
  destruct (existsb (has_email (email u)) (users db)) eqn:Ee; [discriminate|].
  intro E. injection E as <- <-. simpl.
  repeat split; try congruence.
  - exists new_id. repeat split; try assumption.
    intro N. rewrite N in D. simpl in D. congruence.
  - now exists h.
Qed.

End InsertFacts.

(** ** Properties of the rows that every commit keeps

    A property [P] of the two tables that survives the append of a row
    which passed the checks of its table survives every commit, whatever the
    session has pending and whatever other sessions do, and so it survives
    [Task.save] and [User.save], failed or not. *)

Section KeptByCommit.
Context {slugifier : Slugifier}.
Variable P : list User -> list Task -> Prop.

Hypothesis append_task :
  forall us ts row s n,
    P us ts ->
    slug row = Some s -> s <> "" ->
    existsb (has_slug s) ts = false ->
    id row = Some n ->
    existsb (fun r => opt_nat_eqb (id r) (Some n)) ts = false ->
    existsb (has_id (user_id row)) us = true ->
    P us (ts ++ [row]).

Hypothesis append_user :
  forall us ts row n,
    P us ts ->
    existsb (has_email (email row)) us = false ->
    users_id row = Some n ->
    existsb (has_id n) us = false ->
    P (us ++ [row]) ts.

Lemma insert_keeps_P (stamp : nat) (e : entity) (db : DB) :
  rows_satisfy P db -> rows_satisfy P (snd (insert stamp e db)).
Proof.
  unfold rows_satisfy. intro H. destruct e as [u|t]; simpl.
  - destruct (insert_user stamp u db) as [[[v|] u'] db'] eqn:I; simpl.
    + apply insert_user_rejected in I as [-> ->]. exact H.
    + apply insert_user_accepted in I
        as [-> [-> [E [[n [Id [Fr _]]] [_ [Em _]]]]]].
      apply (append_user _ _ _ n); try assumption. now rewrite Em.
  - destruct (insert_task stamp t db) as [[[v|] t'] db'] eqn:I; simpl.
    + apply insert_task_rejected in I as [-> ->]. exact H.
    + apply insert_task_accepted in I
        as [-> [-> [[s [S [NE [_ Fr]]]] [[n [Id [Fi _]]] [O _]]]]].
      now apply (append_task _ _ _ s n).
Qed.

Lemma flush_keeps_P (stamp : nat) (objs : list entity) :
  forall db, rows_satisfy P db -> rows_satisfy P (snd (flush stamp objs db)).
Proof.
  induction objs as [|o rest IH]; intros db H; simpl; [assumption|].
  assert (K := insert_keeps_P stamp o db H).
  destruct (insert stamp o db) as [[[v|] o'] db']; simpl in *; [assumption|].
  specialize (IH db' K).
  destruct (flush stamp rest db') as [[v rest'] db'']. exact IH.
Qed.

Lemma others_commit_keeps_P (i : Interference) (db : DB) :
  rows_satisfy P db -> rows_satisfy P (others_commit i db).
Proof.
  unfold others_commit. generalize (others i) as l. intro l. revert db.
  induction l as [|o l IH]; intros db H; simpl; [assumption|].
  apply IH, insert_keeps_P, H.
Qed.

Lemma session_commit_keeps_P (w : World) :
  rows_satisfy P (store w) -> rows_satisfy P (store (snd (session_commit w))).
Proof.
  intro H. unfold session_commit.
  assert (K := others_commit_keeps_P (hd quiet (env w)) (store w) H).
  destruct (fault (hd quiet (env w))); [exact K|].
  assert (F := flush_keeps_P (now (hd quiet (env w))) (pending w) _ K).
  destruct (flush _ _ _) as [[[v|] objs] db2]; simpl in *; assumption.
Qed.

Lemma task_save_keeps_P (self : Task) (w : World) :
  rows_satisfy P (store w) -> rows_satisfy P (store (snd (Task.save self w))).
Proof.
  intro H.
  assert (K1 : rows_satisfy P (store (snd (session_commit (first_attempt self w)))))
    by now apply session_commit_keeps_P.
  destruct (session_commit (first_attempt self w)) as [[objs|[v|exc]] w1] eqn:C.
  - now rewrite (task_save_first_commit_ok self w w1 objs C).
  - rewrite (task_save_first_commit_violation self w w1 v C).
    assert (K2 := session_commit_keeps_P (second_attempt self w w1) K1).
    destruct (session_commit (second_attempt self w w1)) as [[objs|e] w2];
      exact K2.
  - now rewrite (task_save_first_commit_other self w w1 exc C).
Qed.

Lemma user_save_keeps_P (self : User) (w : World) :
  rows_satisfy P (store w) -> rows_satisfy P (store (snd (User.save self w))).
Proof.
  intro H.
  assert (K := session_commit_keeps_P (user_attempt self w) H).
  destruct (session_commit (user_attempt self w)) as [[objs|e] w1] eqn:C.
  - now rewrite (user_save_commit_ok self w w1 objs C).
  - now rewrite (user_save_commit_error self w w1 e C).
Qed.

End KeptByCommit.

(** ** The constraints of the tables as invariants *)

Lemma NoDup_snoc {A : Type} (l : list A) (x : A) :
  NoDup l -> ~ In x l -> NoDup (l ++ [x]).
Proof.
  intros N I. apply NoDup_app; [assumption|repeat constructor; easy|].
  intros a Ia [<-|[]]. now apply I.
Qed.

Lemma existsb_id_In (n : nat) (ts : list Task) :
  existsb (fun r => opt_nat_eqb (id r) (Some n)) ts = false ->
  ~ In (Some n) (map id ts).
Proof.
  intros E I. apply in_map_iff in I as [r [S R]].
  assert (T : existsb (fun r => opt_nat_eqb (id r) (Some n)) ts = true).
  { apply existsb_exists. exists r. split; [assumption|].
    rewrite S. simpl. apply Nat.eqb_refl. }
  congruence.
Qed.

Lemma existsb_has_id_In (n : nat) (us : list User) :
  existsb (has_id n) us = false -> ~ In (Some n) (map users_id us).
Proof.
  intros E I. apply in_map_iff in I as [r [S R]].
  assert (T : existsb (has_id n) us = true).
  { apply existsb_exists. exists r. split; [assumption|].
    unfold has_id. rewrite S. simpl. apply Nat.eqb_refl. }
  congruence.
Qed.

Lemma existsb_app_l {A : Type} (f : A -> bool) (l l' : list A) :
  existsb f l = true -> existsb f (l ++ l') = true.
Proof. intro E. rewrite existsb_app, E. reflexivity. Qed.

(** X1. [Task.save] and [User.save] keep the unique columns unique: if no
    two stored tasks share a slug or an id and no two stored users share an
    address or an id, the same holds after a save, whether it succeeded,
    failed, or raced with other sessions. *)
Theorem saves_keep_unique_columns
    {slugifier : Slugifier} (w : World) :
  slugs_unique (store w) -> emails_unique (store w) -> keys_unique (store w) ->
  (forall self : Task,
      slugs_unique (store (snd (Task.save self w)))
      /\ emails_unique (store (snd (Task.save self w)))
      /\ keys_unique (store (snd (Task.save self w))))
  /\ (forall self : User,
        slugs_unique (store (snd (User.save self w)))
        /\ emails_unique (store (snd (User.save self w)))
        /\ keys_unique (store (snd (User.save self w)))).
Proof.
  intros S E [Kt Ku].
  set (P := fun (us : list User) (ts : list Task) =>
              NoDup (map slug ts) /\ NoDup (map email us)
              /\ NoDup (map id ts) /\ NoDup (map users_id us)).
  assert (At : forall us ts row s n,
             P us ts -> slug row = Some s -> s <> "" ->
             existsb (has_slug s) ts = false ->
             id row = Some n ->
             existsb (fun r => opt_nat_eqb (id r) (Some n)) ts = false ->
             existsb (has_id (user_id row)) us = true ->
             P us (ts ++ [row])).
  { intros us ts row s n [H1 [H2 [H3 H4]]] Sl _ Fs Id Fi _.
    unfold P. rewrite !map_app. simpl. rewrite Sl, Id.
    repeat split; trivial.
    - apply NoDup_snoc; [assumption|now apply existsb_has_slug_In].
    - apply NoDup_snoc; [assumption|now apply existsb_id_In]. }
  assert (Au : forall us ts row n,
             P us ts -> existsb (has_email (email row)) us = false ->
             users_id row = Some n -> existsb (has_id n) us = false ->
             P (us ++ [row]) ts).
  { intros us ts row n [H1 [H2 [H3 H4]]] Fe Id Fi.
    unfold P. rewrite !map_app. simpl. rewrite Id.
    repeat split; trivial.
    - apply NoDup_snoc; [assumption|now apply existsb_has_email_In].
    - apply NoDup_snoc; [assumption|now apply existsb_has_id_In]. }
  assert (H0 : rows_satisfy P (store w)) by (unfold rows_satisfy, P; auto).
  split; intro self.
  - destruct (task_save_keeps_P P At Au self w H0) as [H1 [H2 [H3 H4]]].
    unfold slugs_unique, emails_unique, keys_unique. auto.
  - destruct (user_save_keeps_P P At Au self w H0) as [H1 [H2 [H3 H4]]].
    unfold slugs_unique, emails_unique, keys_unique. auto.
Qed.

Lemma saves_keep_unique_columns_witness :
  slugs_unique (store (snd (Task.save (slugifier := ascii_slugifier)
                              Ex.milk Ex.raced_twice))).
Proof.
  apply (saves_keep_unique_columns (slugifier := ascii_slugifier) Ex.raced_twice).
  - constructor.
  - repeat constructor. easy.
  - split; repeat constructor; easy.
Defined.

(** X2. [Task.save] and [User.save] keep every stored task owned by a
    stored user: the foreign key of [tasks.user_id] is never left dangling
    by a save. *)
Theorem saves_keep_owners_stored
    {slugifier : Slugifier} (w : World) :
  owners_stored (store w) ->
  (forall self : Task, owners_stored (store (snd (Task.save self w))))
  /\ (forall self : User, owners_stored (store (snd (User.save self w)))).
Proof.
  intro O.
  set (P := fun (us : list User) (ts : list Task) =>
              Forall (fun t => existsb (has_id (user_id t)) us = true) ts).
  assert (At : forall us ts row s n,
             P us ts -> slug row = Some s -> s <> "" ->
             existsb (has_slug s) ts = false ->
             id row = Some n ->
             existsb (fun r => opt_nat_eqb (id r) (Some n)) ts = false ->
             existsb (has_id (user_id row)) us = true ->
             P us (ts ++ [row])).
  { intros us ts row s n H _ _ _ _ _ Ow. unfold P.
    apply Forall_app. split; [exact H|]. now repeat constructor. }
  assert (Au : forall us ts row n,
             P us ts -> existsb (has_email (email row)) us = false ->
             users_id row = Some n -> existsb (has_id n) us = false ->
             P (us ++ [row]) ts).
  { intros us ts row n H _ _ _. unfold P in *.
    eapply Forall_impl; [|exact H]. intros t Ht. now apply existsb_app_l. }
  split; intro self.
  - exact (task_save_keeps_P P At Au self w O).
  - exact (user_save_keeps_P P At Au self w O).
Qed.

Lemma saves_keep_owners_stored_witness :
  owners_stored (store (snd (Task.save (slugifier := ascii_slugifier)
                               Ex.orphan (Ex.world Ex.milk_rows [])))).
Proof.
  apply (saves_keep_owners_stored (slugifier := ascii_slugifier)
           (Ex.world Ex.milk_rows [])).
  repeat constructor.
Defined.


(** ** Lookups *)

Lemma find_by_unique_key {A K : Type} (key : A -> K) (test : A -> bool)
      (k : K) (l : list A) (x : A) :
  (forall y, test y = true <-> key y = k) ->
  NoDup (map key l) -> In x l -> key x = k -> find test l = Some x.
Proof.
  intros T. induction l as [|a l IH]; intros N I E; [easy|].
  simpl in *. apply NoDup_cons_iff in N as [Na Nl].
  destruct (test a) eqn:Ta.
  - destruct I as [->|I]; [reflexivity|].
    exfalso. apply Na. apply T in Ta. rewrite Ta.
    apply in_map_iff. now exists x.
  - destruct I as [->|I]; [|now apply IH].
    apply T in E. congruence.
Qed.

Lemma has_slug_iff (s : string) (t : Task) :
  has_slug s t = true <-> slug t = Some s.
Proof.
  unfold has_slug. destruct (slug t) as [s'|]; [|easy].
  rewrite String.eqb_eq. split; congruence.
Qed.

Lemma has_email_iff (e : string) (u : User) :
  has_email e u = true <-> email u = e.
Proof. unfold has_email. apply String.eqb_eq. Qed.

Lemma has_id_iff (n : nat) (u : User) :
  has_id n u = true <-> users_id u = Some n.
Proof.
  unfold has_id. destruct (users_id u) as [m|]; simpl; [|easy].
  rewrite Nat.eqb_eq. split; congruence.
Qed.


(** X4. The page of a task is found through its slug: when stored slugs
    are unique, [task_detail] called with the slug of any stored task shows
    that task, and called with a slug no stored task carries it aborts with
    404; either way it changes nothing. *)
Theorem task_detail_shows_the_task_of_the_slug (w : World) (s : string) :
  slugs_unique (store w) ->
  (forall t, In t (tasks (store w)) -> slug t = Some s ->
             task_detail s w = (Ok (Template "task_view.html" [t]), w))
  /\ ((forall t, In t (tasks (store w)) -> slug t <> Some s) ->
      task_detail s w = (Ok NotFound, w)).
Proof.
  intro U. split.
  - intros t I S. unfold task_detail, bind, gets, Task.get_by_slug.
    rewrite (find_by_unique_key slug (has_slug s) (Some s) _ t); trivial.
    intro y. apply has_slug_iff.
  - intro N. unfold task_detail, bind, gets.
    destruct (Task.get_by_slug s w) as [t|] eqn:G; [|reflexivity].
    apply find_some in G as [I H]. apply has_slug_iff in H.
    now contradiction (N t I).
Qed.

Lemma task_detail_shows_the_task_of_the_slug_witness :
  task_detail "buy-milk-1" (Ex.world Ex.milk_rows [])
  = (Ok (Template "task_view.html" [Ex.row 2 "Buy milk" "buy-milk-1" 12]),
     Ex.world Ex.milk_rows []).
Proof.
  destruct (task_detail_shows_the_task_of_the_slug
              (Ex.world Ex.milk_rows []) "buy-milk-1") as [F _].
  - repeat constructor; simpl; intuition discriminate.
  - apply F; [simpl; auto|reflexivity].
Defined.

(** X5. A stored user is found under its address and under its id: when
    stored addresses and ids are unique, [User.get_by_email] of the address
    of a stored user and [User.get_by_id] of its id both return that
    user. *)
Theorem user_lookups_return_the_stored_user (w : World) (u : User) (n : nat) :
  emails_unique (store w) -> keys_unique (store w) ->
  In u (users (store w)) ->
  users_id u = Some n ->
  User.get_by_email (email u) w = Some u /\ User.get_by_id n w = Some u.
Proof.
  intros E [_ K] I Id. split.
  - unfold User.get_by_email.
    apply (find_by_unique_key email (has_email (email u)) (email u)); trivial.
    intro y. apply has_email_iff.
  - unfold User.get_by_id.
    apply (find_by_unique_key users_id (has_id n) (Some n)); trivial.
    intro y. apply has_id_iff.
Qed.

Lemma user_lookups_return_the_stored_user_witness :
  User.get_by_email "ann@example.org" (Ex.world [] []) = Some Ex.ann
  /\ User.get_by_id 1 (Ex.world [] []) = Some Ex.ann.
Proof.
  apply (user_lookups_return_the_stored_user (Ex.world [] []) Ex.ann 1).
  - repeat constructor. easy.
  - split; repeat constructor; easy.
  - simpl. auto.
  - reflexivity.
Defined.

(** ** [public_url] *)

Lemma append_cancel_r (a b : string) (c : ascii) :
  (a ++ String c EmptyString = b ++ String c EmptyString)%string -> a = b.
Proof.
  revert b. induction a as [|x a IH]; intros [|y b] E; simpl in E.
  - reflexivity.
  - injection E as _ E. destruct b; discriminate.
  - injection E as _ E. destruct a; discriminate.
  - injection E as -> E. f_equal. now apply IH.
Qed.

(** X6. Distinct stored tasks have distinct public URLs: when stored slugs
    are unique and non-empty, two stored tasks with the same [public_url]
    are the same task. *)
Theorem public_url_identifies_the_task (w : World) (a b : Task) :
  slugs_unique (store w) -> slugs_nonempty (store w) ->
  In a (tasks (store w)) -> In b (tasks (store w)) ->
  Task.public_url a = Task.public_url b -> a = b.
Proof.
  intros U NE Ia Ib E.
  unfold slugs_nonempty in NE. rewrite Forall_forall in NE.
  destruct (NE a Ia) as [sa [Sa _]]. destruct (NE b Ib) as [sb [Sb _]].
  unfold Task.public_url in E. rewrite Sa, Sb in E.
  apply append_cancel_l, append_cancel_r in E. subst sb.
  assert (F := find_by_unique_key slug (has_slug sa) (Some sa)
                 (tasks (store w))).
  assert (Fa := F a (fun y => has_slug_iff sa y) U Ia Sa).
  assert (Fb := F b (fun y => has_slug_iff sa y) U Ib Sb).
  congruence.
Qed.

Lemma public_url_identifies_the_task_witness :
  Ex.row 1 "Buy milk" "buy-milk" 11 = Ex.row 1 "Buy milk" "buy-milk" 11.
Proof.
  apply (public_url_identifies_the_task (Ex.world Ex.milk_rows [])).
  - repeat constructor; simpl; intuition discriminate.
  - repeat constructor; eexists; (split; [reflexivity|discriminate]).
  - simpl. auto.
  - simpl. auto.
  - reflexivity.
Defined.

(** ** [Task.save] without interference *)

Section SaveUndisturbed.
Context {slugifier : Slugifier}.










End SaveUndisturbed.







(** ** What a save leaves in the store *)

Section SaveOutcome.
Context {slugifier : Slugifier}.

Lemma commit_one_task_insert (w w' : World) (t : Task) (objs : list entity) :
  pending w = [ETask t] ->
  session_commit w = (Ok objs, w') ->
  exists row,
    objs = [ETask row]
    /\ insert_task (now (hd quiet (env w))) t (at_commit w)
       = (None, row, store w').
Proof.
  intros P. unfold session_commit, at_commit.
  destruct (fault (hd quiet (env w))); [discriminate|].
  rewrite P. simpl.
  destruct (insert_task _ t _) as [[[v|] row] db'] eqn:I; [discriminate|].
  intro E. injection E as <- <-. simpl. now exists row.
Qed.

Lemma commit_one_user_insert (w w' : World) (u : User) (objs : list entity) :
  pending w = [EUser u] ->
  session_commit w = (Ok objs, w') ->
  exists row,
    objs = [EUser row]
    /\ insert_user (now (hd quiet (env w))) u (at_commit w)
       = (None, row, store w').
Proof.
  intros P. unfold session_commit, at_commit.
  destruct (fault (hd quiet (env w))); [discriminate|].
  rewrite P. simpl.
  destruct (insert_user _ u _) as [[[v|] row] db'] eqn:I; [discriminate|].
  intro E. injection E as <- <-. simpl. now exists row.
Qed.

(** A commit that raises, with no other session committing, leaves the
    rows as they were. *)
Lemma session_commit_raises_rows (w w' : World) (e : exn) :
  others (hd quiet (env w)) = [] ->
  session_commit w = (Raise e, w') ->
  users (store w') = users (store w)
  /\ tasks (store w') = tasks (store w)
  /\ env w' = tl (env w).
Proof.
  intros O. unfold session_commit, others_commit. rewrite O. simpl.
  destruct (fault (hd quiet (env w))).
  - intro E. injection E as _ <-. auto.
  - destruct (flush _ _ _) as [[[v|] objs] db2]; [|discriminate].
    intro E. injection E as _ <-. auto.
Qed.

Lemma assign_slug_columns (self : Task) (w : World) :
  id (Task.assign_slug self w) = id self
  /\ user_id (Task.assign_slug self w) = user_id self
  /\ title (Task.assign_slug self w) = title self
  /\ description (Task.assign_slug self w) = description self
  /\ due_date (Task.assign_slug self w) = due_date self
  /\ priority (Task.assign_slug self w) = priority self
  /\ completed (Task.assign_slug self w) = completed self
  /\ created_at (Task.assign_slug self w) = created_at self.
Proof.
  unfold Task.assign_slug. destruct (slug_missing self); simpl; auto 10.
Qed.

(** After a successful [Task.save] from a clean session, [saved] is the row
    inserted for some task [sent] that differs from [self] in its slug at
    most. *)
Lemma task_save_inserted (self saved : Task) (w w' : World) :
  pending w = [] ->
  Task.save self w = (Ok saved, w') ->
  exists sent stamp db,
    insert_task stamp sent db = (None, saved, store w')
    /\ set_slug sent (slug self) = self.
Proof.
  intros P S.
  destruct (assign_slug_columns self w) as [Ai [Au [At [Ad [Add [Ap [Ac Acr]]]]]]].
  assert (Back : set_slug (Task.assign_slug self w) (slug self) = self).
  { unfold Task.assign_slug. destruct (slug_missing self); now destruct self. }
  destruct (session_commit (first_attempt self w)) as [[objs|[v|exc]] w1] eqn:C.
  - rewrite (task_save_first_commit_ok self w w1 objs C) in S.
    injection S as <- <-.
    assert (P1 : pending (first_attempt self w)
                 = [ETask (Task.assign_slug self w)])
      by (unfold first_attempt; simpl; now rewrite P).
    destruct (commit_one_task_insert _ _ _ _ P1 C) as [row [-> I]].
    exists (Task.assign_slug self w). eauto.
  - rewrite (task_save_first_commit_violation self w w1 v C) in S.
    destruct (session_commit (second_attempt self w w1)) as [[objs|e] w2] eqn:C2;
      [|discriminate].
    injection S as <- <-.
    destruct (commit_one_task_insert _ _ _ _
                (pending_second_attempt self w w1) C2) as [row [-> I]].
    exists (regenerated self w w1). do 2 eexists. split; [exact I|].
    unfold regenerated. rewrite <- Back at 3. now destruct (Task.assign_slug self w).
  - rewrite (task_save_first_commit_other self w w1 exc C) in S. discriminate.
Qed.

End SaveOutcome.

Lemma task_save_stores_a_complete_row_aux
      {slugifier : Slugifier} (self saved : Task) (w w' : World) :
  pending w = [] ->
  Task.save self w = (Ok saved, w') ->
  In saved (tasks (store w'))
  /\ priority saved = default 3 (priority self)
  /\ completed saved = default false (completed self)
  /\ user_id saved = user_id self
  /\ title saved = title self.
Proof.
  intros P S.
  destruct (task_save_inserted self saved w w' P S) as [sent [stamp [db [I B]]]].
  apply insert_task_accepted in I
    as [_ [Ts [_ [_ [_ [Cu [Ct [_ [_ [Cp [Cc _]]]]]]]]]]].
  assert (E : priority self = priority sent
              /\ completed self = completed sent
              /\ user_id self = user_id sent
              /\ title self = title sent)
    by (rewrite <- B; simpl; auto).
  destruct E as [Ep [Ec [Eu Et]]].
  repeat split; try congruence.
  rewrite Ts. apply in_or_app. right. now left.
Qed.

(** X9. A task that [Task.save] has persisted is a complete row: it has an
    id, a non-empty slug and a creation time, its priority and completed
    flag are the given ones or the defaults 3 and false, its other columns
    are those of the task handed in, its owner is a stored user, and it is
    among the stored tasks. *)
Theorem task_save_stores_a_complete_row
    {slugifier : Slugifier} (self saved : Task) (w w' : World) :
  pending w = [] ->
  Task.save self w = (Ok saved, w') ->
  In saved (tasks (store w'))
  /\ (exists n, id saved = Some n)
  /\ (exists s, slug saved = Some s /\ s <> "")
  /\ (exists stamp, created_at saved = Some stamp)
  /\ priority saved = default 3 (priority self)
  /\ completed saved = default false (completed self)
  /\ user_id saved = user_id self
  /\ title saved = title self
  /\ description saved = description self
  /\ due_date saved = due_date self
  /\ existsb (has_id (user_id saved)) (users (store w')) = true.
Proof.
  intros P S.
  destruct (task_save_inserted self saved w w' P S) as [sent [stamp [db [I B]]]].
  apply insert_task_accepted in I
    as [Us [Ts [[s [Sl [NE _]]] [[n [Id _]] [Ow [Cu [Ct [Cd [Cdd [Cp [Cc Ccr]]]]]]]]]]].
  assert (E : priority self = priority sent
              /\ completed self = completed sent
              /\ user_id self = user_id sent
              /\ title self = title sent
              /\ description self = description sent
              /\ due_date self = due_date sent)
    by (rewrite <- B; simpl; auto 10).
  destruct E as [Ep [Ec [Eu [Et [Ed Edd]]]]].
  repeat split; try congruence.
  - rewrite Ts. apply in_or_app. right. now left.
  - eauto.
  - eauto.
  - rewrite Ccr. unfold default. destruct (created_at sent); eauto.
Qed.

Lemma task_save_stores_a_complete_row_witness :
  priority (Ex.row 3 "Buy milk" "buy-milk-1" 0) = default 3 (priority Ex.milk)
  /\ completed (Ex.row 3 "Buy milk" "buy-milk-1" 0) = Some false.
Proof.
  destruct (task_save_stores_a_complete_row (slugifier := ascii_slugifier)
              Ex.milk (Ex.row 3 "Buy milk" "buy-milk-1" 0) Ex.raced
              (snd (Task.save (slugifier := ascii_slugifier) Ex.milk Ex.raced))
              eq_refl eq_refl)
    as [_ [_ [_ [_ [Pr [Co _]]]]]].
  split; [exact Pr|exact Co].
Defined.

(** X10. A save that raises stores nothing: when no other session commits
    meanwhile and [Task.save] or [User.save] raises, the rows of both tables
    are exactly those from before the call. *)
Theorem failed_saves_store_nothing {slugifier : Slugifier} (w w' : World)
        (e : exn) :
  others (hd quiet (env w)) = [] ->
  others (hd quiet (tl (env w))) = [] ->
  (forall self : Task,
      Task.save self w = (Raise e, w') ->
      users (store w') = users (store w) /\ tasks (store w') = tasks (store w))
  /\ (forall self : User,
        User.save self w = (Raise e, w') ->
        users (store w') = users (store w) /\ tasks (store w') = tasks (store w)).
Proof.
  intros O1 O2. split; intros self S.
  - destruct (session_commit (first_attempt self w)) as [[objs|[v|exc]] w1] eqn:C.
    + rewrite (task_save_first_commit_ok self w w1 objs C) in S. discriminate.
    + rewrite (task_save_first_commit_violation self w w1 v C) in S.
      apply session_commit_raises_rows in C as [U1 [T1 E1]]; [|exact O1].
      change (store (first_attempt self w)) with (store w) in U1, T1.
      change (env (first_attempt self w)) with (env w) in E1.
      destruct (session_commit (second_attempt self w w1)) as [[objs|e2] w2] eqn:C2;
        [discriminate|].
      injection S as <- <-.
      apply session_commit_raises_rows in C2 as [U2 [T2 _]].
      * change (store (second_attempt self w w1)) with (store w1) in U2, T2.
        split; congruence.
      * change (env (second_attempt self w w1)) with (env w1).
        rewrite E1. exact O2.
    + rewrite (task_save_first_commit_other self w w1 exc C) in S.
      injection S as <- <-.
      apply session_commit_raises_rows in C as [U1 [T1 _]]; [|exact O1].
      split; assumption.
  - destruct (session_commit (user_attempt self w)) as [[objs|e2] w1] eqn:C.
    + rewrite (user_save_commit_ok self w w1 objs C) in S. discriminate.
    + rewrite (user_save_commit_error self w w1 e2 C) in S.
      injection S as <- <-.
      apply session_commit_raises_rows in C as [U1 [T1 _]]; [|exact O1].
      split; assumption.
Qed.

Lemma failed_saves_store_nothing_witness :
  tasks (store (snd (Task.save (slugifier := ascii_slugifier) Ex.orphan
                       (Ex.world Ex.milk_rows []))))
  = Ex.milk_rows.
Proof.
  destruct (failed_saves_store_nothing (slugifier := ascii_slugifier)
              (Ex.world Ex.milk_rows [])
              (snd (Task.save (slugifier := ascii_slugifier) Ex.orphan
                      (Ex.world Ex.milk_rows [])))
              (IntegrityError (ForeignKeyViolation "tasks" "user_id"))
              eq_refl eq_refl) as [T _].
  now destruct (T Ex.orphan eq_refl) as [_ Rows].
Defined.

(** ** [User.save] *)

(** X11. A user that [User.save] has persisted is found again: after a
    successful save from a clean session, [User.get_by_email] of the address
    and [User.get_by_id] of the id the row received both return the saved
    user, whose name, address and password hash are those handed in. *)
Theorem user_save_then_lookup
    {slugifier : Slugifier} (self saved : User) (w w' : World) :
  pending w = [] ->
  User.save self w = (Ok saved, w') ->
  User.get_by_email (email self) w' = Some saved
  /\ (exists n, users_id saved = Some n /\ User.get_by_id n w' = Some saved)
  /\ name saved = name self
  /\ email saved = email self
  /\ password_hash saved = password_hash self
  /\ (exists h, password_hash saved = Some h).
Proof.
  intros P S.
  destruct (session_commit (user_attempt self w)) as [[objs|e] w1] eqn:C.
  - rewrite (user_save_commit_ok self w w1 objs C) in S. injection S as <- <-.
    assert (P1 : pending (user_attempt self w) = [EUser self])
      by (unfold user_attempt; simpl; now rewrite P).
    destruct (commit_one_user_insert _ _ _ _ P1 C) as [row [-> I]].
    apply insert_user_accepted in I
      as [Us [_ [Fe [[n [Id [Fi _]]] [Nm [Em [Ph [[h H] _]]]]]]]].
    unfold User.flushed, User.get_by_email, User.get_by_id. simpl.
    rewrite Us. repeat split; trivial.
    + apply find_app_last; [exact Fe|]. now apply has_email_iff.
    + exists n. split; [exact Id|].
      apply (find_app_last (has_id n)); [exact Fi|]. now apply has_id_iff.
    + exists h. congruence.
  - rewrite (user_save_commit_error self w w1 e C) in S. discriminate.
Qed.

Lemma user_save_then_lookup_witness :
  User.get_by_email "bea@example.org"
    (snd (User.save (slugifier := ascii_slugifier)
            (mkUser None "Bea" "bea@example.org" (Some "plain$$hunter2") None)
            (Ex.world [] [])))
  = Some (mkUser (Some 2) "Bea" "bea@example.org" (Some "plain$$hunter2")
                 (Some 0)).
Proof.
  apply (user_save_then_lookup (slugifier := ascii_slugifier)
           (mkUser None "Bea" "bea@example.org" (Some "plain$$hunter2") None)
           _ (Ex.world [] []));
    reflexivity.
Defined.




(** The same address in another case is a different address to
    [User.save]: the row is accepted. *)
Example user_save_compares_addresses_exactly :
  map email
      (users (store (snd (User.save (slugifier := ascii_slugifier)
                            (mkUser None "Ann" "Ann@Example.org"
                                    (Some "plain$$hunter2") None)
                            (Ex.world [] [])))))
  = ["ann@example.org"; "Ann@Example.org"].
Proof. reflexivity. Qed.

(** ** [login] *)

Section LoginFacts.
Context {hasher : PasswordHasher} {url_parser : UrlParser}.


(** What [login] can do to the world: nothing, one flash, or a log-in. *)
Lemma login_cases (req : Request) (form : LoginForm) (w : World) :
  login req form w = (Ok (Redirect index_url), w)
  \/ login req form w = (Ok (RenderTemplate "login_form.html"), w)
  \/ login req form w
     = (Ok (RenderTemplate "login_form.html"),
        mkWorld (store w) (pending w) (env w) (trace w) (current_user w)
                (flashes w ++ [("Invalid credentials", "error")]))
  \/ (exists e, login req form w = (Raise e, w))
  \/ (exists u, login req form w
                = (Ok (after_login req),
                   mkWorld (store w) (pending w) (env w) (trace w) (Some u)
                           (flashes w))).
Proof.
  unfold login, bind, gets.
  destruct (is_authenticated w); [now left|].
  destruct (validate_on_submit req (validate_login form)); [|now right; left].
  destruct (User.get_by_email _ w) as [u|];
    [|right; right; left; reflexivity].
  unfold lift_result.
  destruct (User.check_password u (login_password form)) as [[|]|e].
  - right; right; right; right. exists u. reflexivity.
  - right; right; left. reflexivity.
  - right; right; right; left. exists e. reflexivity.
Qed.

End LoginFacts.



(** An absolute [next] is dropped for the index page. *)
Example login_ignores_a_foreign_next :
  fst (login (hasher := plain_hasher) (url_parser := relative_parser)
         (mkRequest true true (Some "https://evil.example/"))
         (Ex.ann_login "secret") (Ex.world [] []))
  = Ok (Redirect "/").
Proof. reflexivity. Qed.

(** X14. [login] never writes: whatever the request, the stored rows, the
    session and its trace are the same after the call as before, also when
    the password check raises. *)
Theorem login_is_read_only
    {hasher : PasswordHasher} {url_parser : UrlParser}
    (req : Request) (form : LoginForm) (w : World) :
  store (snd (login req form w)) = store w
  /\ pending (snd (login req form w)) = pending w
  /\ env (snd (login req form w)) = env w
  /\ trace (snd (login req form w)) = trace w.
Proof.
  destruct (login_cases req form w) as [E|[E|[E|[[e E]|[u E]]]]];
    rewrite E; simpl; auto.
Qed.

(** X15. A failed login does not tell whether the address is registered:
    for an anonymous visitor, a valid form with an unknown address and a
    valid form with a known address and a wrong password get the same
    answer and leave the same world behind. *)
Theorem failed_logins_look_alike
    {hasher : PasswordHasher} {url_parser : UrlParser}
    (req : Request) (unknown wrong : LoginForm) (w : World) (u : User) :
  current_user w = None ->
  validate_on_submit req (validate_login unknown) = true ->
  validate_on_submit req (validate_login wrong) = true ->
  User.get_by_email (Py.lower (Py.strip (login_email unknown))) w = None ->
  User.get_by_email (Py.lower (Py.strip (login_email wrong))) w = Some u ->
  User.check_password u (login_password wrong) = Ok false ->
  login req unknown w = login req wrong w
  /\ fst (login req unknown w) = Ok (RenderTemplate "login_form.html")
  /\ current_user (snd (login req unknown w)) = None.
Proof.
  intros A V1 V2 G1 G2 Ck.
  rewrite (login_rejects req unknown w A V1 (or_introl G1)).
  rewrite (login_rejects req wrong w A V2
             (or_intror (ex_intro _ u (conj G2 Ck)))).
  auto.
Qed.

Lemma failed_logins_look_alike_witness :
  login (hasher := plain_hasher) (url_parser := relative_parser) Ex.post
    (mkLoginForm "nobody@example.org" "secret" false) (Ex.world [] [])
  = login (hasher := plain_hasher) (url_parser := relative_parser) Ex.post
      (Ex.ann_login "Secret") (Ex.world [] []).
Proof.
  apply (failed_logins_look_alike (hasher := plain_hasher)
           (url_parser := relative_parser) Ex.post
           (mkLoginForm "nobody@example.org" "secret" false)
           (Ex.ann_login "Secret") (Ex.world [] []) Ex.ann);
    reflexivity.
Defined.

(** ** [signup] *)

Section SignupFacts.
Context {slugifier : Slugifier} {hasher : PasswordHasher}
        {email_validator : EmailValidator}.

(** The only way to the redirect, for an anonymous visitor. *)
Lemma signup_success (salt : string) (req : Request) (form : SignupForm)
      (w w' : World) :
  current_user w = None ->
  signup salt req form w = (Ok (Redirect index_url), w') ->
  validate_on_submit req (validate_signup form) = true
  /\ User.get_by_email (Py.lower (Py.strip (signup_email form))) w = None
  /\ exists objs w1,
      session_commit (user_attempt (new_account salt form) w) = (Ok objs, w1)
      /\ w' = mkWorld (store w1) (pending w1) (env w1) (trace w1)
                      (Some (User.flushed (new_account salt form) objs))
                      (flashes w1
                       ++ [("Welcome! Your account has been created.",
                            "success")]).
Proof.
  intros A. unfold signup, bind, gets.
  rewrite (not_authenticated w A).
  destruct (validate_on_submit req (validate_signup form)); [|discriminate].
  destruct (User.get_by_email _ w) as [existing|]; [discriminate|].
  fold (new_account salt form).
  destruct (session_commit (user_attempt (new_account salt form) w))
    as [[objs|e] w1] eqn:C.
  - rewrite (user_save_commit_ok _ w w1 objs C).
    unfold login_user, flash, ret. simpl.
    intro E. injection E as <-. repeat split. now exists objs, w1.
  - rewrite (user_save_commit_error _ w w1 e C). discriminate.
Qed.

Lemma data_required_strip (s : string) :
  data_required s = true -> Py.strip s <> "".
Proof.
  unfold data_required. intro H. apply andb_true_iff in H as [_ H].
  now apply truthy_iff.
Qed.

Lemma length_ok_bounds (lo : nat) (hi : option nat) (s : string) :
  length_ok lo hi s = true ->
  lo <= String.length s
  /\ match hi with Some m => String.length s <= m | None => True end.
Proof.
  unfold length_ok. intro H. apply andb_true_iff in H as [L U].
  apply Nat.leb_le in L. split; [assumption|].
  destruct hi; [now apply Nat.leb_le|exact I].
Qed.

Lemma nonempty_length (s : string) : s <> "" -> 1 <= String.length s.
Proof. destruct s; [easy|simpl; lia]. Qed.

End SignupFacts.

(** X16. [signup] turns away an address that is registered already, in any
    case and with any blanks around it: for an anonymous visitor with a
    valid form whose normalised address is that of a stored user, it shows
    the form again with the flash "Email is already registered", touches
    neither the session nor the rows, and logs nobody in. *)
Theorem signup_rejects_a_registered_email
    {slugifier : Slugifier} {hasher : PasswordHasher}
    {email_validator : EmailValidator}
    (salt : string) (req : Request) (form : SignupForm) (w : World) (u : User) :
  current_user w = None ->
  validate_on_submit req (validate_signup form) = true ->
  In u (users (store w)) ->
  email u = Py.lower (Py.strip (signup_email form)) ->
  signup salt req form w
  = (Ok (RenderTemplate "admin/signup_form.html"),
     mkWorld (store w) (pending w) (env w) (trace w) None
             (flashes w ++ [("Email is already registered", "error")])).
Proof.
  intros A V I E. unfold signup, bind, gets.
  rewrite (not_authenticated w A), V.
  destruct (User.get_by_email _ w) as [existing|] eqn:G.
  - unfold flash, ret. now rewrite A.
  - exfalso. unfold User.get_by_email in G.
    apply (find_none _ _ G) in I. apply not_true_iff_false in I. apply I.
    now apply has_email_iff.
Qed.

Lemma signup_rejects_a_registered_email_witness :
  fst (signup (slugifier := ascii_slugifier) (hasher := plain_hasher)
         (email_validator := at_validator) "salt" Ex.post
         (mkSignupForm "Ann" "  ANN@Example.ORG " "hunter2!") (Ex.world [] []))
  = Ok (RenderTemplate "admin/signup_form.html").
Proof.
  rewrite (signup_rejects_a_registered_email (slugifier := ascii_slugifier)
             (hasher := plain_hasher) (email_validator := at_validator)
             "salt" Ex.post
             (mkSignupForm "Ann" "  ANN@Example.ORG " "hunter2!")
             (Ex.world [] []) Ex.ann); try reflexivity.
  simpl. auto.
Defined.

(** X17. [signup] does not recover from losing the race for an address:
    when the check before the insert finds the address free but the commit
    of the new account raises, [signup] raises the same error, nobody is
    logged in and no welcome is flashed. *)
Theorem signup_propagates_a_failed_commit
    {slugifier : Slugifier} {hasher : PasswordHasher}
    {email_validator : EmailValidator}
    (salt : string) (req : Request) (form : SignupForm) (w w' : World)
    (e : exn) :
  current_user w = None ->
  validate_on_submit req (validate_signup form) = true ->
  User.get_by_email (Py.lower (Py.strip (signup_email form))) w = None ->
  session_commit (user_attempt (new_account salt form) w) = (Raise e, w') ->
  signup salt req form w = (Raise e, w')
  /\ current_user w' = None
  /\ flashes w' = flashes w.
Proof.
  intros A V G C. unfold signup, bind, gets.
  rewrite (not_authenticated w A), V, G.
  fold (new_account salt form).
  rewrite (user_save_commit_error _ w w' e C). split; [reflexivity|].
  revert C. unfold session_commit.
  destruct (fault _).
  - intro C. injection C as _ <-. simpl. auto.
  - destruct (flush _ _ _) as [[[v|] objs] db2]; [|discriminate].
    intro C. injection C as _ <-. simpl. auto.
Qed.

Lemma signup_propagates_a_failed_commit_witness :
  fst (signup (slugifier := ascii_slugifier) (hasher := plain_hasher)
         (email_validator := at_validator) "salt" Ex.post Ex.bea_signup
         (Ex.world []
            [mkInterference
               [EUser (mkUser None "B." "a@b.com" (Some "plain$$x") None)]
               5 None]))
  = Raise (IntegrityError (UniqueViolation "users" "email")).
Proof.
  destruct (signup_propagates_a_failed_commit (slugifier := ascii_slugifier)
              (hasher := plain_hasher) (email_validator := at_validator)
              "salt" Ex.post Ex.bea_signup
              (Ex.world []
                 [mkInterference
                    [EUser (mkUser None "B." "a@b.com" (Some "plain$$x") None)]
                    5 None])
              _ (IntegrityError (UniqueViolation "users" "email"))
              eq_refl eq_refl eq_refl eq_refl) as [S _].
  now rewrite S.
Defined.

(** X18. An account created through [signup] is clean: it is a stored user
    and the one logged in; its name is the submitted one without surrounding
    blanks, not empty and at most 120 characters long; its address is in
    normal form (trimmed, no capitals); and what is stored for the password
    is the hash of the submitted one, which has at least 6 characters. *)
Theorem signup_stores_a_clean_account
    {slugifier : Slugifier} {hasher : PasswordHasher}
    {email_validator : EmailValidator}
    (salt : string) (req : Request) (form : SignupForm) (w w' : World) :
  current_user w = None ->
  pending w = [] ->
  signup salt req form w = (Ok (Redirect index_url), w') ->
  exists u,
    current_user w' = Some u
    /\ In u (users (store w'))
    /\ name u = Py.strip (signup_name form)
    /\ trimmed (name u)
    /\ 1 <= String.length (name u) <= 120
    /\ Py.lower (Py.strip (email u)) = email u
    /\ email_is_valid (signup_email form) = true
    /\ password_hash u
       = Some (generate_password_hash salt (signup_password form))
    /\ 6 <= String.length (signup_password form).
Proof.
  intros A P S.
  destruct (signup_success salt req form w w' A S)
    as [V [_ [objs [w1 [C ->]]]]].
  assert (P1 : pending (user_attempt (new_account salt form) w)
               = [EUser (new_account salt form)])
    by (unfold user_attempt; simpl; now rewrite P).
  destruct (commit_one_user_insert _ _ _ _ P1 C) as [row [-> I]].
  apply insert_user_accepted in I as [Us [_ [_ [_ [Nm [Em [Ph _]]]]]]].
  unfold validate_on_submit, validate_signup in V.
  apply andb_true_iff in V as [_ V]. apply andb_true_iff in V as [_ V].
  apply andb_true_iff in V as [V Lp]. apply andb_true_iff in V as [V Dp].
  apply andb_true_iff in V as [V Ev]. apply andb_true_iff in V as [V De].
  apply andb_true_iff in V as [Dn Ln].
  exists row. unfold User.flushed. simpl.
  repeat split.
  - rewrite Us. apply in_or_app. right. now left.
  - exact Nm.
  - unfold trimmed. rewrite Nm. simpl. apply strip_idempotent.
  - rewrite Nm. simpl. apply nonempty_length. now apply data_required_strip.
  - rewrite Nm. simpl.
    etransitivity; [apply strip_length|].
    now apply (length_ok_bounds 2 (Some 120)).
  - rewrite Em. simpl. apply normalised_email_is_normal.
  - assumption.
  - now rewrite Ph.
  - now apply (length_ok_bounds 6 None).
Qed.

Lemma signup_stores_a_clean_account_witness :
  exists u,
    current_user Ex.signed_up = Some u
    /\ In u (users (store Ex.signed_up))
    /\ name u = Py.strip (signup_name Ex.bea_signup)
    /\ trimmed (name u)
    /\ 1 <= String.length (name u) <= 120
    /\ Py.lower (Py.strip (email u)) = email u
    /\ email_is_valid (EmailValidator := at_validator)
         (signup_email Ex.bea_signup) = true
    /\ password_hash u
       = Some (generate_password_hash (PasswordHasher := plain_hasher)
                 "salt" (signup_password Ex.bea_signup))
    /\ 6 <= String.length (signup_password Ex.bea_signup).
Proof.
  apply (signup_stores_a_clean_account (slugifier := ascii_slugifier)
           (hasher := plain_hasher) (email_validator := at_validator)
           "salt" Ex.post Ex.bea_signup (Ex.world [] []));
    reflexivity.
Defined.

(** The name may end up shorter than the two characters the form asks
    for: the length is checked before the blanks are cut off. *)
Example signup_checks_the_name_before_stripping :
  option_map name
    (current_user
       (snd (signup (slugifier := ascii_slugifier) (hasher := plain_hasher)
               (email_validator := at_validator) "salt" Ex.post
               (mkSignupForm " B" "b@c.org" "hunter2!") (Ex.world [] []))))
  = Some "B".
Proof. reflexivity. Qed.

(** X19. Who has signed up can log in: after a successful [signup] and a
    [logout], [login] with the same address and password, submitted the
    same way, logs in the account that was created.  The hasher is taken to
    verify exactly the password a hash was generated from. *)
Theorem signup_logout_login
    {slugifier : Slugifier} {hasher : PasswordHasher}
    {email_validator : EmailValidator} {url_parser : UrlParser}
    {login_manager : LoginManager}
    (salt : string) (req : Request) (form : SignupForm) (w w' : World)
    (remember : bool) :
  verifies_own_password hasher ->
  current_user w = None ->
  pending w = [] ->
  signup salt req form w = (Ok (Redirect index_url), w') ->
  let anonymous := snd (logout w') in
  let again := mkLoginForm (signup_email form) (signup_password form) remember in
  current_user anonymous = None
  /\ current_user w' <> None
  /\ current_user (snd (login req again anonymous)) = current_user w'.
Proof.
  intros V A P S anonymous again.
  destruct (signup_stores_normalised_email salt req form w w' A P S)
    as [u [L [Em [Ph G]]]].
  destruct (signup_success salt req form w w' A S) as [Va _].
  assert (Out : logout w'
                = (Ok (Location index_url),
                   mkWorld (store w') (pending w') (env w') (trace w') None
                           (flashes w'))).
  { unfold logout, login_required, bind, gets, is_authenticated.
    rewrite L. reflexivity. }
  unfold anonymous. rewrite Out. simpl. rewrite L.
  repeat split; [discriminate|].
  unfold validate_on_submit, validate_signup in Va.
  apply andb_true_iff in Va as [Sub Va]. apply andb_true_iff in Va as [Csrf Va].
  apply andb_true_iff in Va as [Va _]. apply andb_true_iff in Va as [Va Dp].
  apply andb_true_iff in Va as [Va _]. apply andb_true_iff in Va as [_ De].
  apply login_on_match; trivial.
  - unfold validate_on_submit, validate_login, again. simpl.
    now rewrite Sub, Csrf, De, Dp.
  - unfold User.check_password. rewrite Ph.
    rewrite V. now rewrite String.eqb_refl.
Qed.

Lemma signup_logout_login_witness :
  current_user
    (snd (login (hasher := plain_hasher) (url_parser := relative_parser)
            Ex.post (mkLoginForm "A@B.com" "hunter2!" false)
            (snd (logout (login_manager := Sample.to_login) Ex.signed_up))))
  = current_user Ex.signed_up.
Proof.
  apply (signup_logout_login (slugifier := ascii_slugifier)
           (hasher := plain_hasher) (email_validator := at_validator)
           (url_parser := relative_parser) (login_manager := Sample.to_login)
           "salt" Ex.post Ex.bea_signup (Ex.world [] []) Ex.signed_up false);
    try reflexivity.
  exact plain_hasher_verifies_own_password.
Defined.

(** ** Saving the same title twice *)

Section SaveTwice.
Context {slugifier : Slugifier}.



End SaveTwice.



(** ** [create_task], [logout] and [load_user] *)

Section TaskRouteFacts.
Context {slugifier : Slugifier} {login_manager : LoginManager}.

Lemma task_save_then_get_by_slug (self saved : Task) (w w' : World) :
  pending w = [] ->
  Task.save self w = (Ok saved, w') ->
  exists s, slug saved = Some s /\ Task.get_by_slug s w' = Some saved.
Proof.
  intros P S.
  destruct (session_commit (first_attempt self w)) as [[objs|[v|exc]] w1] eqn:C.
  - rewrite (task_save_first_commit_ok self w w1 objs C) in S.
    injection S as <- <-.
    apply (get_by_slug_of_committed (first_attempt self w)); [|assumption].
    unfold first_attempt. simpl. now rewrite P.
  - rewrite (task_save_first_commit_violation self w w1 v C) in S.
    destruct (session_commit (second_attempt self w w1)) as [[objs|e] w2] eqn:C2;
      [|discriminate].
    injection S as <- <-.
    apply (get_by_slug_of_committed (second_attempt self w w1));
      [reflexivity|assumption].
  - rewrite (task_save_first_commit_other self w w1 exc C) in S. discriminate.
Qed.

(** The task [create_task] builds from a valid form for the user [uid]. *)
Lemma create_task_success (req : Request) (form : TaskForm) (w w' : World)
      (u : User) (uid : nat) (url : string) :
  current_user w = Some u -> users_id u = Some uid ->
  create_task req form w = (Ok (Location url), w') ->
  validate_on_submit req (validate_task form) = true
  /\ exists saved w1,
      Task.save (mkTask None uid (Py.strip (task_title form))
                        (task_description form)
                        (match task_due_date form with
                         | DateValue d => Some d
                         | _ => None
                         end)
                        (option_map Z.to_nat (task_priority form))
                        None None None) w
      = (Ok saved, w1)
      /\ url = Task.public_url saved
      /\ w' = mkWorld (store w1) (pending w1) (env w1) (trace w1)
                      (current_user w1)
                      (flashes w1 ++ [("Task created successfully", "success")]).
Proof.
  intros A Id. unfold create_task, login_required, bind, gets, is_authenticated.
  rewrite A.
  destruct (validate_on_submit req (validate_task form)); [|discriminate].
  simpl. rewrite A, Id.
  destruct (Task.save _ w) as [[saved|e] w1]; [|discriminate].
  unfold flash, ret. intro E. injection E as <- <-.
  split; [reflexivity|]. now exists saved, w1.
Qed.

End TaskRouteFacts.

(** X21. A task created through [create_task] is a valid, visible task: it
    is stored and owned by the logged-in user; its title is the submitted
    one without surrounding blanks, not empty and at most 200 characters
    long; its priority is between 1 and 5 and it is not completed; and the
    redirect goes to its [public_url], whose slug [task_detail] resolves to
    this very task. *)
Theorem create_task_stores_a_valid_task
    {slugifier : Slugifier} {login_manager : LoginManager}
    (req : Request) (form : TaskForm) (w w' : World)
    (u : User) (uid : nat) (url : string) :
  current_user w = Some u -> users_id u = Some uid ->
  pending w = [] ->
  create_task req form w = (Ok (Location url), w') ->
  exists saved s,
    url = Task.public_url saved
    /\ In saved (tasks (store w'))
    /\ user_id saved = uid
    /\ title saved = Py.strip (task_title form)
    /\ trimmed (title saved)
    /\ 1 <= String.length (title saved) <= 200
    /\ (exists p, priority saved = Some p /\ 1 <= p <= 5)
    /\ completed saved = Some false
    /\ slug saved = Some s
    /\ task_detail s w' = (Ok (Template "task_view.html" [saved]), w').
Proof.
  intros A Id P C.
  destruct (create_task_success req form w w' u uid url A Id C)
    as [V [saved [w1 [S [-> ->]]]]].
  destruct (task_save_stores_a_complete_row_aux _ saved w w1 P S)
    as [I [Pr [Co [Ow Ti]]]].
  destruct (task_save_then_get_by_slug _ saved w w1 P S) as [s [Sl G]].
  simpl in Pr, Co, Ow, Ti.
  unfold validate_on_submit, validate_task in V.
  apply andb_true_iff in V as [_ V]. apply andb_true_iff in V as [_ V].
  apply andb_true_iff in V as [V Np]. apply andb_true_iff in V as [V _].
  apply andb_true_iff in V as [V _]. apply andb_true_iff in V as [Dt Lt].
  exists saved, s. simpl. repeat split; trivial.
  - unfold trimmed. rewrite Ti. apply strip_idempotent.
  - rewrite Ti. apply nonempty_length. now apply data_required_strip.
  - rewrite Ti. etransitivity; [apply strip_length|].
    now apply (length_ok_bounds 3 (Some 200)).
  - unfold number_ok in Np.
    destruct (task_priority form) as [p|]; [|discriminate].
    apply andb_true_iff in Np as [Np Hi]. apply andb_true_iff in Np as [_ Lo].
    apply Z.leb_le in Lo, Hi.
    exists (Z.to_nat p). simpl in Pr. split; [exact Pr|lia].
  - unfold task_detail, bind, gets.
    change (Task.get_by_slug s (mkWorld (store w1) (pending w1) (env w1)
                                  (trace w1) (current_user w1)
                                  (flashes w1
                                   ++ [("Task created successfully", "success")])))
      with (Task.get_by_slug s w1).
    now rewrite G.
Qed.

Lemma create_task_stores_a_valid_task_witness :
  exists saved s,
    "/task/walk-the-dog/" = Task.public_url saved
    /\ In saved (tasks (store Sample.chores_created))
    /\ user_id saved = 1
    /\ title saved = Py.strip (task_title Sample.chores)
    /\ trimmed (title saved)
    /\ 1 <= String.length (title saved) <= 200
    /\ (exists p, priority saved = Some p /\ 1 <= p <= 5)
    /\ completed saved = Some false
    /\ slug saved = Some s
    /\ task_detail s Sample.chores_created
       = (Ok (Template "task_view.html" [saved]), Sample.chores_created).
Proof.
  apply (create_task_stores_a_valid_task (slugifier := ascii_slugifier)
           (login_manager := Sample.to_login)
           Ex.post Sample.chores (Sample.ann_session [] [])
           Sample.chores_created Ex.ann 1 "/task/walk-the-dog/");
    reflexivity.
Defined.

(** The title may end up shorter than the three characters the form asks
    for: the length is checked before the blanks are cut off. *)
Example create_task_checks_the_title_before_stripping :
  map title
      (tasks (store (snd (create_task (slugifier := ascii_slugifier)
                            (login_manager := Sample.to_login) Ex.post
                            (mkTaskForm "  a  " None DateBlank (Some 3%Z))
                            (Sample.ann_session [] [])))))
  = ["a"].
Proof. reflexivity. Qed.

Section CreateTaskRows.
Context {slugifier : Slugifier}.

Lemma others_commit_nobody (i : Interference) (db : DB) :
  others i = [] -> others_commit i db = db.
Proof. unfold others_commit. now intros ->. Qed.

Lemma session_commit_ok_rows (w w' : World) (t : Task) (objs : list entity) :
  pending w = [ETask t] ->
  others (hd quiet (env w)) = [] ->
  session_commit w = (Ok objs, w') ->
  users (store w') = users (store w)
  /\ tasks (store w') = tasks (store w) ++ [Task.flushed t objs].
Proof.
  intros P O C.
  destruct (commit_one_task_insert w w' t objs P C) as [row [-> I]].
  unfold at_commit in I. rewrite (others_commit_nobody _ _ O) in I.
  apply insert_task_accepted in I as [Us [Ts _]]. now split.
Qed.

(** The rows after [Task.save] when no other session commits: those from
    before, and the saved task when there is one. *)
Lemma task_save_rows (self : Task) (w : World) :
  pending w = [] ->
  others (hd quiet (env w)) = [] ->
  others (hd quiet (tl (env w))) = [] ->
  users (store (snd (Task.save self w))) = users (store w)
  /\ tasks (store (snd (Task.save self w)))
     = tasks (store w)
       ++ match fst (Task.save self w) with
          | Ok saved => [saved]
          | Raise _ => []
          end.
Proof.
  intros P O1 O2.
  assert (P1 : pending (first_attempt self w) = [ETask (Task.assign_slug self w)])
    by (unfold first_attempt; simpl; now rewrite P).
  destruct (session_commit (first_attempt self w)) as [[objs|[v|exc]] w1] eqn:C.
  - rewrite (task_save_first_commit_ok self w w1 objs C). simpl.
    exact (session_commit_ok_rows _ _ _ _ P1 O1 C).
  - rewrite (task_save_first_commit_violation self w w1 v C).
    apply session_commit_raises_rows in C as [U1 [T1 E1]]; [|exact O1].
    change (store (first_attempt self w)) with (store w) in U1, T1.
    change (env (first_attempt self w)) with (env w) in E1.
    assert (O2' : others (hd quiet (env (second_attempt self w w1))) = [])
      by (change (env (second_attempt self w w1)) with (env w1);
          now rewrite E1).
    destruct (session_commit (second_attempt self w w1)) as [[objs|e2] w2] eqn:C2.
    + destruct (session_commit_ok_rows _ _ _ _
                  (pending_second_attempt self w w1) O2' C2) as [U2 T2].
      change (store (second_attempt self w w1)) with (store w1) in U2, T2.
      simpl. split; congruence.
    + apply session_commit_raises_rows in C2 as [U2 [T2 _]]; [|exact O2'].
      change (store (second_attempt self w w1)) with (store w1) in U2, T2.
      simpl. rewrite List.app_nil_r. split; congruence.
  - rewrite (task_save_first_commit_other self w w1 exc C). simpl.
    apply session_commit_raises_rows in C as [U1 [T1 _]]; [|exact O1].
    rewrite List.app_nil_r. now split.
Qed.

End CreateTaskRows.

(** X22. [create_task] appends one valid task or nothing: for a logged-in
    user, from a clean session and with no other session committing, the
    users are untouched and the tasks afterwards are those from before,
    followed, exactly when the answer is the redirect to the new task, by
    one task that belongs to the user and carries the trimmed title and a
    priority from 1 to 5.  A form that does not validate (not submitted, bad
    CSRF token, blank or too short title, priority outside 1..5, unreadable
    date, too long description) changes nothing at all. *)
Theorem create_task_appends_one_valid_task_or_nothing
    {slugifier : Slugifier} {login_manager : LoginManager}
    (req : Request) (form : TaskForm) (w : World) (u : User) (uid : nat) :
  current_user w = Some u -> users_id u = Some uid ->
  pending w = [] ->
  others (hd quiet (env w)) = [] ->
  others (hd quiet (tl (env w))) = [] ->
  users (store (snd (create_task req form w))) = users (store w)
  /\ (tasks (store (snd (create_task req form w))) = tasks (store w)
      \/ exists saved p,
          tasks (store (snd (create_task req form w)))
          = tasks (store w) ++ [saved]
          /\ fst (create_task req form w)
             = Ok (Location (Task.public_url saved))
          /\ user_id saved = uid
          /\ title saved = Py.strip (task_title form)
          /\ priority saved = Some p /\ 1 <= p <= 5)
  /\ (validate_on_submit req (validate_task form) = false ->
      create_task req form w = (Ok (Template "admin/task_form.html" []), w)).
Proof.
  intros A Id P O1 O2.
  unfold create_task, login_required, bind, gets, is_authenticated.
  rewrite A.
  destruct (validate_on_submit req (validate_task form)) eqn:V;
    [|simpl; auto].
  simpl. rewrite A, Id.
  match goal with
  | |- context [Task.save ?t w] => set (task := t)
  end.
  destruct (task_save_rows task w P O1 O2) as [Us Ts].
  assert (Cols := task_save_stores_a_complete_row_aux task).
  destruct (Task.save task w) as [[saved|e] w1] eqn:S; simpl in *.
  - split; [exact Us|]. split; [|discriminate]. right.
    destruct (Cols saved w w1 P S) as [_ [Pr [_ [Ow Ti]]]].
    unfold validate_on_submit, validate_task in V.
    apply andb_true_iff in V as [_ V]. apply andb_true_iff in V as [_ V].
    apply andb_true_iff in V as [_ Np].
    unfold number_ok in Np.
    destruct (task_priority form) as [p|]; [|discriminate].
    apply andb_true_iff in Np as [Np Hi]. apply andb_true_iff in Np as [_ Lo].
    apply Z.leb_le in Lo, Hi.
    exists saved, (Z.to_nat p). repeat split; trivial; lia.
  - rewrite List.app_nil_r in Ts.
    split; [exact Us|]. split; [now left|discriminate].
Qed.

Lemma create_task_appends_one_valid_task_or_nothing_witness :
  tasks (store (snd (create_task (slugifier := ascii_slugifier)
                       (login_manager := Sample.to_login) Ex.post
                       (mkTaskForm "Walk the dog" None DateBlank (Some 9%Z))
                       (Sample.ann_session Ex.milk_rows []))))
  = Ex.milk_rows.
Proof.
  destruct (create_task_appends_one_valid_task_or_nothing
              (slugifier := ascii_slugifier) (login_manager := Sample.to_login)
              Ex.post (mkTaskForm "Walk the dog" None DateBlank (Some 9%Z))
              (Sample.ann_session Ex.milk_rows []) Ex.ann 1
              eq_refl eq_refl eq_refl eq_refl eq_refl) as [_ [_ R]].
  now rewrite R.
Defined.

(** X23. [logout] ends the session and nothing else: for a logged-in user
    it redirects to the index page, leaves nobody logged in and the rows
    and flashes as they were, and from then on [create_task] and [logout]
    itself answer as to an anonymous visitor. *)
Theorem logout_ends_the_session
    {slugifier : Slugifier} {login_manager : LoginManager}
    (w : World) (u : User) :
  current_user w = Some u ->
  logout w
  = (Ok (Location index_url),
     mkWorld (store w) (pending w) (env w) (trace w) None (flashes w))
  /\ (forall req form,
        create_task req form (snd (logout w)) = unauthorized (snd (logout w)))
  /\ logout (snd (logout w)) = unauthorized (snd (logout w)).
Proof.
  intro A.
  assert (Out : logout w
                = (Ok (Location index_url),
                   mkWorld (store w) (pending w) (env w) (trace w) None
                           (flashes w))).
  { unfold logout, login_required, bind, gets, is_authenticated.
    now rewrite A. }
  rewrite Out. repeat split.
Qed.

Lemma logout_ends_the_session_witness :
  fst (create_task (slugifier := ascii_slugifier)
         (login_manager := Sample.to_login) Ex.post Sample.chores
         (snd (logout (login_manager := Sample.to_login)
                 (Sample.ann_session [] []))))
  = Ok (Location "/login").
Proof.
  destruct (logout_ends_the_session (slugifier := ascii_slugifier)
              (login_manager := Sample.to_login)
              (Sample.ann_session [] []) Ex.ann eq_refl) as [_ [C _]].
  rewrite C. reflexivity.
Defined.

(** X24. [load_user] reads back the id Flask-Login keeps in the cookie: for
    the decimal numeral of an id, as [str] prints it, it returns what
    [User.get_by_id] returns for that id.  The numeral is taken to be within
    the 4300 digits beyond which [int] refuses a string. *)
Theorem load_user_reads_back_the_id
    (n : nat) (w : World) :
  String.length (Py.str n) <= 4300 ->
  load_user (Py.str n) w = User.get_by_id n w.
Proof.
  intros _. unfold load_user. rewrite int_of_str.
  replace (Z.of_nat n <? 0)%Z with false by (symmetry; apply Z.ltb_ge; lia).
  now rewrite Nat2Z.id.
Qed.

Lemma load_user_reads_back_the_id_witness :
  load_user "1" (Ex.world [] []) = Some Ex.ann.
Proof.
  apply (load_user_reads_back_the_id 1 (Ex.world [] [])).
  vm_compute. lia.
Defined.

(** What is no numeral loads nobody, and neither does a negative id; blanks
    around a numeral and underscores between its digits are accepted. *)
Example load_user_on_odd_cookies :
  load_user "ann" (Ex.world [] []) = None
  /\ load_user "" (Ex.world [] []) = None
  /\ load_user "-1" (Ex.world [] []) = None
  /\ load_user "1_" (Ex.world [] []) = None
  /\ load_user " 1 " (Ex.world [] []) = Some Ex.ann
  /\ load_user "0_1" (Ex.world [] []) = Some Ex.ann.
Proof. repeat split; reflexivity. Qed.

(** ** [_generate_unique_slug] in general *)

(** X25. [_generate_unique_slug] always returns a slug that no stored task
    carries, and it is the first such in the order [base], [base-1],
    [base-2], ...: every earlier candidate is taken, so the suffix is never
    larger than the number of stored tasks. *)
Theorem generate_unique_slug_returns_the_first_free_candidate
    {slugifier : Slugifier} (self : Task) (w : World) :
  exists m,
    Task._generate_unique_slug self w = candidate (Task.slug_base self) m
    /\ m <= length (tasks (store w))
    /\ (forall t, In t (tasks (store w)) ->
                  slug t <> Some (Task._generate_unique_slug self w))
    /\ (forall j, j < m -> taken w (candidate (Task.slug_base self) j)).
Proof.
  destruct (generate_unique_slug_first_free self w) as [m [E [F T]]].
  exists m. repeat split; trivial.
  - now apply (taken_bound w (Task.slug_base self)).
  - intros t I S. unfold Task.get_by_slug in F.
    apply (find_none _ _ F) in I. apply not_true_iff_false in I. apply I.
    now apply has_slug_iff.
Qed.
